(** * fetch_images.py: a shallow embedding and its verified properties

    The script fetches the JSON record of a compound item, extracts the
    (pid, order) pairs of its children and downloads one image per child.

    Python values are embedded as the inductive type [pyval], exceptions as
    [exn], and the effects of the script (printing, network requests, the
    file system) as a state-and-error monad [M] that also collects the
    events of a run.  Whatever the outside world decides (HTTP responses,
    faults of the file system, the JSON parser of the standard library) is
    read from a record [Env].  The file system is the one of Linux and
    macOS as far as the texts of its errors go. *)

From Stdlib Require Import ZArith String Ascii List Lia DecimalString DecimalPos.
From stdpp Require Import gmap strings list fin_maps.

Set Warnings "-register-all".

(** ** Python strings

    A Python [str] is embedded as a Rocq [string]; one character stands for
    one code point below 256. *)

Module PyStr.

(** [str(n)] for an [int]: the decimal numeral, with a leading [-] for
    negative numbers. *)
Definition str_int (n : Z) : string :=
  NilZero.string_of_int (Z.to_int n).

(** ['0' * k] *)
Fixpoint zeros (k : nat) : string :=
  match k with
  | O => EmptyString
  | S k' => String "0" (zeros k')
  end.

Definition is_sign (c : ascii) : bool :=
  (Ascii.eqb c "+" || Ascii.eqb c "-")%bool.

(** [s.zfill(width)]: a string of length [width] or more is returned as
    it is; a shorter one is filled with zeros on the left, after its
    sign when it starts with one. *)
Definition zfill (width : nat) (s : string) : string :=
  if (width <=? String.length s)%nat then s
  else
    let fill := zeros (width - String.length s) in
    match s with
    | String c rest =>
        if is_sign c then String c (fill +:+ rest) else fill +:+ s
    | EmptyString => fill
    end.

(** [c.isspace()] on the code points below 256: TAB, LF, VT, FF, CR,
    FS, GS, RS, US, space, NEL and the no-break space. *)
Definition isspace (c : ascii) : bool :=
  let n := nat_of_ascii c in
  ((9 <=? n) && (n <=? 13) || (28 <=? n) && (n <=? 32)
   || (n =? 133) || (n =? 160))%nat%bool.

Fixpoint lstrip (s : string) : string :=
  match s with
  | String c rest => if isspace c then lstrip rest else s
  | EmptyString => EmptyString
  end.

Fixpoint rstrip (s : string) : string :=
  match s with
  | String c rest =>
      match rstrip rest with
      | EmptyString => if isspace c then EmptyString else String c EmptyString
      | r => String c r
      end
  | EmptyString => EmptyString
  end.

(** [s.strip()] *)
Definition strip (s : string) : string := rstrip (lstrip s).

(** [not s] for a string *)
Definition is_empty (s : string) : bool :=
  match s with EmptyString => true | _ => false end.

Definition backslash : ascii := ascii_of_nat 92.
Definition single_quote : ascii := ascii_of_nat 39.
Definition double_quote : ascii := ascii_of_nat 34.

(** The digits of an escape [\xhh]. *)
Definition hex_digit (n : nat) : ascii :=
  nth n (list_ascii_of_string "0123456789abcdef") "0"%char.

(** [c.isprintable()] on the code points below 256: all but the control
    characters, the no-break space and the soft hyphen. *)
Definition isprintable (c : ascii) : bool :=
  let n := nat_of_ascii c in
  ((32 <=? n) && (n <? 127) || (161 <=? n) && negb (n =? 173))%nat%bool.

(** One character of [repr(s)], between quotes of the kind [quote]. *)
Definition repr_char (quote c : ascii) : string :=
  let n := nat_of_ascii c in
  if (Ascii.eqb c quote || Ascii.eqb c backslash)%bool
  then String backslash (String c EmptyString)
  else if (n =? 9)%nat then String backslash "t"
  else if (n =? 10)%nat then String backslash "n"
  else if (n =? 13)%nat then String backslash "r"
  else if isprintable c then String c EmptyString
  else String backslash
         (String "x" (String (hex_digit (n / 16))
                        (String (hex_digit (n mod 16)) EmptyString))).

Fixpoint escaped (quote : ascii) (s : string) : string :=
  match s with
  | String c rest => repr_char quote c +:+ escaped quote rest
  | EmptyString => EmptyString
  end.

Definition has (c : ascii) (s : string) : bool :=
  existsb (Ascii.eqb c) (list_ascii_of_string s).

(** [repr(s)]: between single quotes, or between double quotes when [s]
    has a single quote and no double one. *)
Definition repr (s : string) : string :=
  let quote :=
    if (has single_quote s && negb (has double_quote s))%bool
    then double_quote else single_quote in
  String quote (escaped quote s +:+ String quote EmptyString).

End PyStr.

(** ** Python values, as [json.loads] produces them *)

(** A [float] is identified by its shortest [repr], which is what [str]
    returns for it: the script observes nothing else of a float. *)
Inductive pyval : Type :=
| PNone
| PBool (b : bool)
| PInt (n : Z)
| PFloat (repr : string)
| PStr (s : string)
| PList (items : list pyval)
| PDict (entries : gmap string pyval).

(** ** Exceptions *)

Inductive exn : Type :=
| HTTPError (code : Z) (reason : string)
| URLError (reason : string)
| JSONDecodeError (msg : string)
| ValueError (msg : string)
| AttributeError (msg : string)
| TypeError (msg : string)
| OtherError (cls : string) (msg : string).

(** What an expression without side effects gives: a value or an
    exception. *)
Inductive result (A : Type) : Type :=
| Ok (a : A)
| Raise (e : exn).
Arguments Ok {A} a.
Arguments Raise {A} e.

(** How a statement ends: normally, with an exception of one of the
    classes above, or with the [SystemExit] of [sys.exit], which is not an
    [Exception] and passes through every [except] clause of the script.
    (Interrupts from the keyboard are not modelled.) *)
Inductive outcome (A : Type) : Type :=
| Returns (a : A)
| Raises (e : exn)
| Exits (code : Z).
Arguments Returns {A} a.
Arguments Raises {A} e.
Arguments Exits {A} code.

(** [str(e)] *)
Definition exn_str (e : exn) : string :=
  match e with
  | HTTPError code reason =>
      "HTTP Error " +:+ PyStr.str_int code +:+ ": " +:+ reason
  | URLError reason => "<urlopen error " +:+ reason +:+ ">"
  | JSONDecodeError msg => msg
  | ValueError msg => msg
  | AttributeError msg => msg
  | TypeError msg => msg
  | OtherError _ msg => msg
  end.

(** ** Operations on values *)

(** [bool(v)] *)
Definition truthy (v : pyval) : bool :=
  match v with
  | PNone => false
  | PBool b => b
  | PInt n => negb (n =? 0)%Z
  | PFloat r => negb (String.eqb r "0.0" || String.eqb r "-0.0")
  | PStr s => negb (PyStr.is_empty s)
  | PList l => match l with [] => false | _ => true end
  | PDict m => negb (bool_decide (m = ∅))
  end.

(** [v is not None] *)
Definition is_not_None (v : pyval) : bool :=
  match v with PNone => false | _ => true end.

(** [type(v).__name__] *)
Definition type_name (v : pyval) : string :=
  match v with
  | PNone => "NoneType"
  | PBool _ => "bool"
  | PInt _ => "int"
  | PFloat _ => "float"
  | PStr _ => "str"
  | PList _ => "list"
  | PDict _ => "dict"
  end.

(** [v.get(key)]: the value under [key] or [None] for a dict, an
    [AttributeError] for every other value. *)
Definition py_get (v : pyval) (key : string) : result pyval :=
  match v with
  | PDict m => Ok (default PNone (m !! key))
  | _ => Raise (AttributeError
                  ("'" +:+ type_name v +:+ "' object has no attribute 'get'"))
  end.

Definition chars (s : string) : list pyval :=
  (λ c, PStr (String c EmptyString)) <$> list_ascii_of_string s.

(** [iter(v)], all at once: the items of a list, the keys of a dict, the
    characters of a string, a [TypeError] for the rest.  (The keys come in
    the order of the [gmap], not in insertion order; the script calls
    [.get] on each and so fails on whichever comes first.) *)
Definition py_iter (v : pyval) : result (list pyval) :=
  match v with
  | PList l => Ok l
  | PDict m => Ok (PStr <$> (map_to_list m).*1)
  | PStr s => Ok (chars s)
  | _ => Raise (TypeError ("'" +:+ type_name v +:+ "' object is not iterable"))
  end.

(** ** The outside world *)

(** An entry of the file system: a regular file with its content, or a
    directory. *)
Inductive node : Type :=
| File (content : list Byte.byte)
| Dir.

(** The state a run threads through: the paths that exist, and how many
    times [urlopen] has been called so far. *)
Record state : Type := State {
  fs : gmap string node;
  requests : nat
}.

(** What a run does that can be observed from outside.  [Call] marks an
    entry into [download_image]; [Request] marks a call of [urlopen];
    [Progress] is the bar that [tqdm] sets up for a list of the given
    length, which it draws on standard error (its later refreshes are
    driven by the clock and are left out); [Traceback] is the
    interpreter's report, on standard error, of an exception that nothing
    caught. *)
Inductive event : Type :=
| Stdout (line : string)
| Stderr (line : string)
| Traceback (e : exn)
| Progress (total : nat)
| Request (url : string)
| Call (image_url output_path : string).

(** [response.read()] gives the body or fails. *)
Inductive body : Type :=
| Body (data : list Byte.byte)
| BrokenBody (e : exn).

(** What the network answers to a request: a final HTTP response (after
    the redirects [urllib] follows), or no response at all. *)
Inductive http_outcome : Type :=
| Response (status : Z) (reason : string) (payload : body)
| NoResponse (e : exn).

(** Everything decided outside the script. *)
Record Env : Type := {
  (** the answer to the [n]-th call of [urlopen], made for [url] *)
  http : nat -> string -> http_outcome;
  (** [json.loads(data.decode('utf-8'))] *)
  json_loads : list Byte.byte -> result pyval;
  (** [str(pathlib.Path(s))] *)
  path_str : string -> string;
  (** [Path.mkdir] on a path that does not exist: [None] when it succeeds *)
  mkdir_fault : string -> option exn;
  (** the missing ancestors of that path which [Path.mkdir] makes, with
      [parents=True], before it makes the path itself or fails *)
  mkdir_parents : string -> list string;
  (** [open(path, 'wb')]: [None] when it succeeds *)
  open_fault : string -> option exn;
  (** [out_file.write(data)]: [None] when all of [data] is written,
      [Some (k, e)] when [e] is raised after [k] bytes *)
  write_fault : string -> list Byte.byte -> option (nat * exn);
  (** [repr] of a list or a dict *)
  container_repr : pyval -> string
}.

(** [str(v)], which is also how an f-string formats [v]. *)
Definition py_str (env : Env) (v : pyval) : string :=
  match v with
  | PNone => "None"
  | PBool true => "True"
  | PBool false => "False"
  | PInt n => PyStr.str_int n
  | PFloat r => r
  | PStr s => s
  | PList _ | PDict _ => container_repr env v
  end.

(** ** The monad of the script: state, exceptions and emitted events *)

Record run (A : Type) : Type := Run {
  res : outcome A;
  final : state;
  emitted : list event
}.
Arguments Run {A} res final emitted.
Arguments res {A} r.
Arguments final {A} r.
Arguments emitted {A} r.

Definition M (A : Type) : Type := state -> run A.

Definition ret {A} (a : A) : M A := fun s => Run (Returns a) s [].

Definition raise {A} (e : exn) : M A := fun s => Run (Raises e) s [].

Definition bind {A B} (m : M A) (k : A -> M B) : M B := fun s =>
  let r := m s in
  match res r with
  | Returns a =>
      let r' := k a (final r) in
      Run (res r') (final r') (emitted r ++ emitted r')
  | Raises e => Run (Raises e) (final r) (emitted r)
  | Exits code => Run (Exits code) (final r) (emitted r)
  end.

(** [try: m  except Exception as e: handler e] *)
Definition try_except {A} (m : M A) (handler : exn -> M A) : M A := fun s =>
  let r := m s in
  match res r with
  | Raises e =>
      let r' := handler e (final r) in
      Run (res r') (final r') (emitted r ++ emitted r')
  | _ => r
  end.

(** An expression evaluated in a statement. *)
Definition lift {A} (r : result A) : M A :=
  match r with
  | Ok a => ret a
  | Raise e => raise e
  end.

Definition emit (ev : event) : M unit := fun s => Run (Returns tt) s [ev].

Declare Scope py_scope.
Delimit Scope py_scope with py.
Notation "x <- m ;; k" := (bind m (fun x => k))
  (at level 100, m at next level, right associativity) : py_scope.
Notation "m ;;; k" := (bind m (fun _ => k))
  (at level 100, right associativity) : py_scope.
Local Open Scope py_scope.

(** [print(line)] and [print(line, file=sys.stderr)] *)
Definition print (line : string) : M unit := emit (Stdout line).
Definition eprint (line : string) : M unit := emit (Stderr line).

(** [sys.exit(code)] *)
Definition sys_exit {A} (code : Z) : M A := fun s => Run (Exits code) s [].

(** [os.path.exists(path)] *)
Definition path_exists (path : string) : M bool := fun s =>
  Run (Returns (bool_decide (is_Some (fs s !! path)))) s [].

(** [urlopen(url)]: a response with a status in 200..299 is handed over;
    any other one becomes an [HTTPError] with its status and reason. *)
Definition urlopen (env : Env) (url : string) : M body := fun s =>
  let s' := State (fs s) (S (requests s)) in
  match http env (requests s) url with
  | Response status reason payload =>
      if ((200 <=? status) && (status <? 300))%Z
      then Run (Returns payload) s' [Request url]
      else Run (Raises (HTTPError status reason)) s' [Request url]
  | NoResponse e => Run (Raises e) s' [Request url]
  end.

(** [response.read()] *)
Definition read (b : body) : M (list Byte.byte) :=
  match b with
  | Body data => ret data
  | BrokenBody e => raise e
  end.

(** [open(path, 'wb')]: creates the file, or empties it. *)
Definition open_wb (env : Env) (path : string) : M unit := fun s =>
  match open_fault env path with
  | Some e => Run (Raises e) s []
  | None => Run (Returns tt) (State (<[path := File []]> (fs s)) (requests s)) []
  end.

(** [out_file.write(data)], up to the closing of the file. *)
Definition write (env : Env) (path : string) (data : list Byte.byte) : M unit :=
  fun s =>
  match write_fault env path data with
  | Some (k, e) =>
      Run (Raises e) (State (<[path := File (take k data)]> (fs s)) (requests s)) []
  | None => Run (Returns tt) (State (<[path := File data]> (fs s)) (requests s)) []
  end.

(** The file system with the directories [dirs] added; what is already
    there stays as it is. *)
Definition add_dirs (dirs : list string) (m : gmap string node)
  : gmap string node :=
  foldr (fun d acc => match acc !! d with
                      | None => <[d := Dir]> acc
                      | Some _ => acc
                      end) m dirs.

(** The [FileExistsError] of [os.mkdir], whose text ends with the [repr]
    of the path. *)
Definition file_exists_error (path : string) : exn :=
  OtherError "FileExistsError" ("[Errno 17] File exists: " +:+ PyStr.repr path).

(** [path.mkdir(parents=True, exist_ok=True)]: nothing to do for a
    directory that is there, a [FileExistsError] for a file.  On a path
    that is not there, the missing parents are made first; they stay when
    the call fails after that. *)
Definition mkdir (env : Env) (path : string) : M unit := fun s =>
  match fs s !! path with
  | Some Dir => Run (Returns tt) s []
  | Some (File _) => Run (Raises (file_exists_error path)) s []
  | None =>
      let fs1 := add_dirs (mkdir_parents env path) (fs s) in
      match mkdir_fault env path with
      | Some e => Run (Raises e) (State fs1 (requests s)) []
      | None => Run (Returns tt) (State (<[path := Dir]> fs1) (requests s)) []
      end
  end.

(** [try: m] followed by [except] clauses for particular classes:
    [clauses e] is the clause that matches [e], if one does. *)
Definition try_clauses {A} (m : M A) (clauses : exn -> option (M A)) : M A :=
  fun s =>
  let r := m s in
  match res r with
  | Raises e =>
      match clauses e with
      | Some h =>
          let r' := h (final r) in
          Run (res r') (final r') (emitted r ++ emitted r')
      | None => r
      end
  | _ => r
  end.

(** ** The script *)

Definition item_url (pid : string) : string :=
  "https://repository.library.brown.edu/api/items/" +:+ pid +:+ "/".

Definition fetch_parent_data (env : Env) (pid : string) : M pyval :=
  let url := item_url pid in
  try_clauses
    (response <- urlopen env url ;;
     raw <- read response ;;
     data <- lift (json_loads env raw) ;;
     ret data)
    (fun e =>
       match e with
       | HTTPError code reason =>
           Some (eprint ("HTTP Error " +:+ PyStr.str_int code +:+ ": " +:+ reason) ;;;
                 raise e)
       | URLError reason =>
           Some (eprint ("URL Error: " +:+ reason) ;;; raise e)
       | JSONDecodeError _ =>
           Some (eprint ("JSON Decode Error: " +:+ exn_str e) ;;; raise e)
       | _ => None
       end).

(** One turn of the list comprehension of [get_child_pids]: the pair that
    [child] contributes, if it passes the filter. *)
Definition child_entry (child : pyval) : result (option (pyval * pyval)) :=
  match py_get child "pid" with
  | Ok pid =>
      if truthy pid then
        match py_get child "order" with
        | Ok order =>
            if is_not_None order then Ok (Some (pid, order)) else Ok None
        | Raise e => Raise e
        end
      else Ok None
  | Raise e => Raise e
  end.

(** [[(child.get('pid'), child.get('order')) for child in children if ...]] *)
Fixpoint comprehension (children : list pyval) : result (list (pyval * pyval)) :=
  match children with
  | [] => Ok []
  | child :: rest =>
      match child_entry child with
      | Ok kept =>
          match comprehension rest with
          | Ok pairs => Ok (match kept with Some p => p :: pairs | None => pairs end)
          | Raise e => Raise e
          end
      | Raise e => Raise e
      end
  end.

Definition len_is_zero {A} (l : list A) : bool :=
  match l with [] => true | _ => false end.

Definition get_child_pids (parent_data : pyval) : M (list (pyval * pyval)) :=
  relations <- lift (py_get parent_data "relations") ;;
  if negb (truthy relations) then
    raise (ValueError "No relations found in parent data.")
  else
  children <- lift (py_get relations "hasPart") ;;
  if negb (truthy children) then
    raise (ValueError "No child items found in parent data.")
  else
  items <- lift (py_iter children) ;;
  child_pids_and_pages <- lift (comprehension items) ;;
  if (len_is_zero child_pids_and_pages || (length child_pids_and_pages =? 0)%nat)%bool then
    raise (ValueError "No valid child PIDs found.")
  else
  print ("Found " +:+ PyStr.str_int (Z.of_nat (length child_pids_and_pages))
           +:+ " child PIDs.") ;;;
  ret child_pids_and_pages.

Definition download_image (env : Env) (image_url output_path : string) : M unit :=
  emit (Call image_url output_path) ;;;
  there <- path_exists output_path ;;
  if there then
    print ("Image already exists at " +:+ output_path +:+ ", skipping download.")
  else
    try_except
      (response <- urlopen env image_url ;;
       open_wb env output_path ;;;
       data <- read response ;;
       write env output_path data)
      (fun e =>
         eprint ("Failed to download image from " +:+ image_url +:+ ": "
                   +:+ exn_str e) ;;;
         raise e).

Definition image_url_of (env : Env) (pid : pyval) : string :=
  "https://repository.library.brown.edu/iiif/image/" +:+ py_str env pid
    +:+ "/full/!800,800/0/default.jpg".

(** [str(page).zfill(4)] *)
Definition page_name (env : Env) (page : pyval) : string :=
  PyStr.zfill 4 (py_str env page).

Definition output_path_of (env : Env) (output_dir : string) (page : pyval) : string :=
  output_dir +:+ "/" +:+ page_name env page +:+ ".jpg".

(** The body of the loop of [download_images_for_children]. *)
Definition process_child (env : Env) (output_dir : string) (child : pyval * pyval)
  : M unit :=
  let '(pid, page) := child in
  let page := page_name env page in
  try_except
    (let image_url := image_url_of env pid in
     let output_path := output_dir +:+ "/" +:+ page +:+ ".jpg" in
     download_image env image_url output_path)
    (fun e =>
       eprint ("Error processing PID " +:+ py_str env pid +:+ ": " +:+ exn_str e) ;;;
       raise e).

(** [for pid, page in ...: body] *)
Fixpoint for_children (env : Env) (output_dir : string)
    (child_pids : list (pyval * pyval)) : M unit :=
  match child_pids with
  | [] => ret tt
  | child :: rest =>
      process_child env output_dir child ;;;
      for_children env output_dir rest
  end.

Definition download_images_for_children (env : Env)
    (child_pids : list (pyval * pyval)) (output_dir : string) : M unit :=
  emit (Progress (length child_pids)) ;;;
  for_children env output_dir child_pids.

(** [main], entered with the two positional arguments that
    [parser.parse_args()] returns. *)
Definition main (env : Env) (pid output : string) : M unit :=
  if PyStr.is_empty (PyStr.strip pid) then
    eprint "Error: PID cannot be empty." ;;;
    sys_exit 1
  else
  let output_dir := path_str env output in
  mkdir env output_dir ;;;
  try_except
    (data <- fetch_parent_data env pid ;;
     child_pids <- get_child_pids data ;;
     download_images_for_children env child_pids output_dir)
    (fun e =>
       eprint ("Error: " +:+ exn_str e) ;;;
       sys_exit 1).

(** The process: its exit code, the state it leaves and what it emitted.
    An exception that reaches the top is reported by the interpreter, which
    then exits with code 1. *)
Definition program (env : Env) (pid output : string) (s : state)
  : Z * state * list event :=
  let r := main env pid output s in
  match res r with
  | Returns _ => (0%Z, final r, emitted r)
  | Exits code => (code, final r, emitted r)
  | Raises e => (1%Z, final r, emitted r ++ [Traceback e])
  end.

(** ** Reading a run *)

(** The calls of [download_image] among the events, in order, each with
    its URL and its destination. *)
Fixpoint calls (evs : list event) : list (string * string) :=
  match evs with
  | [] => []
  | Call u p :: rest => (u, p) :: calls rest
  | _ :: rest => calls rest
  end.

(** The URLs given to [urlopen] among the events, in order. *)
Fixpoint requested (evs : list event) : list string :=
  match evs with
  | [] => []
  | Request u :: rest => u :: requested rest
  | _ :: rest => requested rest
  end.

(** The lines printed on standard output, in order. *)
Fixpoint stdout_lines (evs : list event) : list string :=
  match evs with
  | [] => []
  | Stdout l :: rest => l :: stdout_lines rest
  | _ :: rest => stdout_lines rest
  end.

(** The call that the loop makes for a pair. *)
Definition call_for (env : Env) (output_dir : string) (child : pyval * pyval)
  : string * string :=
  (image_url_of env child.1, output_path_of env output_dir child.2).

Definition skip_notice (output_path : string) : string :=
  "Image already exists at " +:+ output_path +:+ ", skipping download.".

Definition found_notice (n : nat) : string :=
  "Found " +:+ PyStr.str_int (Z.of_nat n) +:+ " child PIDs.".

(** What the filter of [get_child_pids] lets through. *)
Definition passes_filter (child : pyval * pyval) : Prop :=
  truthy child.1 = true /\ is_not_None child.2 = true.

(** Every call of [download_image] for a destination that exists in
    [fs0] is followed at once by the skip notice, so by no request. *)
Definition skips_existing (fs0 : gmap string node) (evs : list event) : Prop :=
  forall before u p after,
    evs = before ++ Call u p :: after ->
    is_Some (fs0 !! p) ->
    exists after', after = Stdout (skip_notice p) :: after'.

(** ** The wording of the specification *)

Definition digit (d : Z) : ascii := ascii_of_nat (48 + Z.to_nat d).

(** A page number below 10000 written with four decimal digits. *)
Definition four_digits (n : Z) : string :=
  String (digit (n / 1000))
    (String (digit (n / 100 mod 10))
       (String (digit (n / 10 mod 10))
          (String (digit (n mod 10)) EmptyString))).

(** The three ways in which a record has no usable children. *)
Inductive failure : Type := NoRelations | NoChildren | NoValidChildren.

Definition failure_message (f : failure) : string :=
  match f with
  | NoRelations => "No relations found in parent data."
  | NoChildren => "No child items found in parent data."
  | NoValidChildren => "No valid child PIDs found."
  end.

(** A field of a JSON object that is missing or empty: absent, [null],
    or an empty (falsy) value. *)
Definition missing_or_empty (m : gmap string pyval) (key : string) : Prop :=
  m !! key = None \/ exists v, m !! key = Some v /\ truthy v = false.

(** A child descriptor without a pid (absent, [null] or empty) or without
    a non-null order (absent or [null]). *)
Definition lacks_pid_or_order (child : pyval) : Prop :=
  exists d, child = PDict d /\
    (missing_or_empty d "pid" \/ d !! "order" = None \/ d !! "order" = Some PNone).

Inductive invalid_record : pyval -> failure -> Prop :=
| invalid_no_relations m :
    missing_or_empty m "relations" ->
    invalid_record (PDict m) NoRelations
| invalid_no_children m r :
    m !! "relations" = Some (PDict r) ->
    r <> ∅ ->
    missing_or_empty r "hasPart" ->
    invalid_record (PDict m) NoChildren
| invalid_no_valid_children m r child children :
    m !! "relations" = Some (PDict r) ->
    r !! "hasPart" = Some (PList (child :: children)) ->
    Forall lacks_pid_or_order (child :: children) ->
    invalid_record (PDict m) NoValidChildren.

(** A download that fails once the destination is open: the body cannot
    be read (nothing is written), or the write stops after [k] bytes. *)
Inductive fails_after_open (env : Env) (path : string)
  : body -> exn -> list Byte.byte -> Prop :=
| broken_read e :
    fails_after_open env path (BrokenBody e) e []
| broken_write data k e :
    write_fault env path data = Some (k, e) ->
    fails_after_open env path (Body data) e (take k data).

(** ** Concrete records and worlds used in the examples *)

Definition child_descriptor (pid : pyval) (order : pyval) : pyval :=
  PDict (<["pid" := pid]> (<["order" := order]> ∅)).

Definition item_with (children : list pyval) : pyval :=
  PDict {[ "relations" := PDict {[ "hasPart" := PList children ]} ]}.

(** The record [{"relations": {"hasPart": [{"pid": "a:1", "order": 1},
    {"pid": "a:2", "order": null}, {"pid": "a:3", "order": 2}]}}]. *)
Definition sample_record : pyval :=
  item_with [child_descriptor (PStr "a:1") (PInt 1);
             child_descriptor (PStr "a:2") PNone;
             child_descriptor (PStr "a:3") (PInt 2)].

Definition two_pages : list (pyval * pyval) :=
  [(PStr "a:1", PInt 1); (PStr "a:3", PInt 23)].

Definition jpeg : list Byte.byte := [Byte.xff; Byte.xd8; Byte.xff; Byte.xd9].

(** A world in which the item API answers [status] with the JSON of
    [record] to the first request, images are served as [jpeg] when
    [images_up] and are unreachable otherwise, and the disk accepts
    [disk_room] bytes per file. *)
Definition sample_env (status : Z) (record : pyval) (images_up : bool)
    (disk_room : option nat) : Env := {|
  http := fun n url =>
    if (n =? 0)%nat then Response status "Not Found" (Body [])
    else if images_up then Response 200 "OK" (Body jpeg)
    else NoResponse (URLError "unreachable");
  json_loads := fun _ => Ok record;
  path_str := fun s => s;
  mkdir_fault := fun _ => None;
  mkdir_parents := fun _ => [];
  open_fault := fun _ => None;
  write_fault := fun _ data =>
    match disk_room with
    | Some k => Some (k, OtherError "OSError" "[Errno 28] No space left on device")
    | None => None
    end;
  container_repr := fun _ => "[]"
|}.

(** The same world, but for the output directory: [mkdir] makes the
    directories [made] and then fails with [e]. *)
Definition stuck_env (made : list string) (e : exn) : Env := {|
  http := http (sample_env 200 sample_record true None);
  json_loads := json_loads (sample_env 200 sample_record true None);
  path_str := fun s => s;
  mkdir_fault := fun _ => Some e;
  mkdir_parents := fun _ => made;
  open_fault := fun _ => None;
  write_fault := fun _ _ => None;
  container_repr := fun _ => "[]"
|}.

Definition empty_disk : state := State ∅ 0.

Definition disk_with (path : string) : state :=
  State {[ path := File jpeg ]} 1.

(** ** Properties of runs *)

(** [m] keeps the property [I] of the state and the property [T] of what
    is emitted, and does not exit. *)
Definition keeps (I : state -> Prop) (T : list event -> Prop) {A} (m : M A)
  : Prop :=
  forall s, I s ->
    I (final (m s)) /\ T (emitted (m s)) /\ forall code, res (m s) <> Exits code.

(** A report on standard error: a line that the script prints there, or
    the traceback of the interpreter.  (The bar of [tqdm] is drawn on
    standard error too; it is a [Progress], not a report.) *)
Definition on_stderr (ev : event) : Prop :=
  match ev with
  | Stderr _ | Traceback _ => True
  | _ => False
  end.

(** Every path of [fs0] is still there in [s]. *)
Definition grows (fs0 : gmap string node) (s : state) : Prop :=
  forall p, is_Some (fs0 !! p) -> is_Some (fs s !! p).

(** The two notices of the script. *)
Definition is_notice (line : string) : Prop :=
  (exists n, line = found_notice n) \/ (exists path, line = skip_notice path).

Definition stdout_ok (ev : event) : Prop :=
  match ev with
  | Stdout line => is_notice line
  | _ => True
  end.

(** The integers from 0 up to [k], [k] excluded. *)
Definition below (k : Z) : list Z := Z.of_nat <$> seq 0 (Z.to_nat k).

(** ** More ways to read a run and a record *)

(** The page number that a file name (without [.jpg]) denotes. *)
Definition page_number (name : string) : option Z :=
  option_map Z.of_int (NilEmpty.int_of_string name).

(** The line that [fetch_parent_data] prints for an exception, if it has
    an [except] clause for its class. *)
Definition fetch_log (e : exn) : list event :=
  match e with
  | HTTPError code reason =>
      [Stderr ("HTTP Error " +:+ PyStr.str_int code +:+ ": " +:+ reason)]
  | URLError reason => [Stderr ("URL Error: " +:+ reason)]
  | JSONDecodeError msg => [Stderr ("JSON Decode Error: " +:+ msg)]
  | _ => []
  end.

(** The ways in which fetching the record goes wrong, for the answer that
    the network gives to the [n]-th request. *)
Inductive fetch_fails (env : Env) (n : nat) (url : string) : exn -> Prop :=
| fetch_no_response e :
    http env n url = NoResponse e ->
    fetch_fails env n url e
| fetch_bad_status status reason payload :
    http env n url = Response status reason payload ->
    ~ (200 <= status < 300)%Z ->
    fetch_fails env n url (HTTPError status reason)
| fetch_broken_body status reason e :
    http env n url = Response status reason (BrokenBody e) ->
    (200 <= status < 300)%Z ->
    fetch_fails env n url e
| fetch_bad_json status reason raw e :
    http env n url = Response status reason (Body raw) ->
    (200 <= status < 300)%Z ->
    json_loads env raw = Raise e ->
    fetch_fails env n url e.

(** An object. *)
Definition is_dict (v : pyval) : Prop := exists d, v = PDict d.

(** The pair of a child descriptor that has a pid and a non-null order. *)
Definition pair_of (child : pyval) : option (pyval * pyval) :=
  match child with
  | PDict d =>
      match d !! "pid", d !! "order" with
      | Some pid, Some order =>
          if truthy pid && is_not_None order then Some (pid, order) else None
      | _, _ => None
      end
  | _ => None
  end.

(** The values of [hasPart] that pass [if not children] without being a
    list, with the exception that the comprehension then raises. *)
Definition not_a_list_error (children : pyval) : exn :=
  match children with
  | PStr _ | PDict _ => AttributeError "'str' object has no attribute 'get'"
  | _ => TypeError ("'" +:+ type_name children +:+ "' object is not iterable")
  end.

(** The classes of the exceptions of the extraction. *)
Definition extraction_error (e : exn) : Prop :=
  match e with
  | ValueError _ | AttributeError _ | TypeError _ => True
  | _ => False
  end.

(** A download that fails before the destination is opened: no response,
    a response with a status outside 200..299, or a destination that
    cannot be opened for writing. *)
Inductive fails_before_open (env : Env) (n : nat) (url path : string)
  : exn -> Prop :=
| open_no_response e :
    http env n url = NoResponse e ->
    fails_before_open env n url path e
| open_bad_status status reason payload :
    http env n url = Response status reason payload ->
    ~ (200 <= status < 300)%Z ->
    fails_before_open env n url path (HTTPError status reason)
| open_refused status reason payload e :
    http env n url = Response status reason payload ->
    (200 <= status < 300)%Z ->
    open_fault env path = Some e ->
    fails_before_open env n url path e.

(** Every entry of [s] is in [s'], as it was. *)
Definition extends (s s' : state) : Prop :=
  forall p n, fs s !! p = Some n -> fs s' !! p = Some n.

(** A second call for a destination, in the same run, is followed at once
    by the skip notice. *)
Definition skips_repeats (evs : list event) : Prop :=
  forall a u1 p b u2 c,
    evs = a ++ Call u1 p :: b ++ Call u2 p :: c ->
    exists c', c = Stdout (skip_notice p) :: c'.

(** Nothing in [evs] is a report on standard error: no line of the script
    there and no traceback. *)
Definition silent (evs : list event) : Prop :=
  Forall (fun ev => ~ on_stderr ev) evs.

(** * Properties *)

(** ** Strings *)

Lemma strip_blank (s : string) :
  forallb PyStr.isspace (list_ascii_of_string s) = true ->
  PyStr.strip s = EmptyString.
Proof.
  unfold PyStr.strip. induction s as [|c s IH]; simpl; [done|].
  intros [Hc Hs]%andb_prop. rewrite Hc. auto.
Qed.

Lemma zfill_long (w : nat) (s : string) :
  w <= String.length s -> PyStr.zfill w s = s.
Proof.
  intros H. unfold PyStr.zfill.
  destruct (Nat.leb_spec w (String.length s)); [done | lia].
Qed.

Lemma length_append (s t : string) :
  String.length (s +:+ t) = String.length s + String.length t.
Proof. induction s; simpl; auto. Qed.

Lemma length_zeros (k : nat) : String.length (PyStr.zeros k) = k.
Proof. induction k; simpl; auto. Qed.

Lemma zfill_length (w : nat) (s : string) :
  String.length (PyStr.zfill w s) = Nat.max w (String.length s).
Proof.
  unfold PyStr.zfill.
  destruct (Nat.leb_spec w (String.length s)) as [H|H]; [lia|].
  destruct s as [|c rest]; simpl in *.
  - rewrite length_zeros. lia.
  - destruct (PyStr.is_sign c); simpl;
      rewrite length_append, length_zeros; simpl; lia.
Qed.

Lemma page_name_four_digits_all :
  forallb (fun n => String.eqb (PyStr.zfill 4 (PyStr.str_int n)) (four_digits n))
    (below 10000%Z) = true.
Proof. vm_compute. reflexivity. Qed.

Lemma zfill_four_digits (n : Z) :
  (0 <= n < 10000)%Z -> PyStr.zfill 4 (PyStr.str_int n) = four_digits n.
Proof.
  intros Hn. pose proof page_name_four_digits_all as H.
  rewrite forallb_forall in H. apply String.eqb_eq, H.
  unfold below. apply in_map_iff. exists (Z.to_nat n). split; [lia|].
  apply in_seq. lia.
Qed.

(** ** The extraction filter *)

Lemma child_entry_dict (d : gmap string pyval) :
  child_entry (PDict d) =
    Ok (let pid := default PNone (d !! "pid") in
        let order := default PNone (d !! "order") in
        if truthy pid && is_not_None order then Some (pid, order) else None).
Proof.
  unfold child_entry, py_get. cbv zeta.
  destruct (truthy (default PNone (d !! "pid"))); [|done].
  destruct (is_not_None (default PNone (d !! "order"))); done.
Qed.

Lemma comprehension_app (before after : list pyval) ps qs :
  comprehension before = Ok ps ->
  comprehension after = Ok qs ->
  comprehension (before ++ after) = Ok (ps ++ qs).
Proof.
  revert ps. induction before as [|c before IH]; simpl; intros ps Hb Ha.
  - by inversion Hb.
  - destruct (child_entry c) as [kept|]; try done.
    destruct (comprehension before) as [ps'|]; try done.
    rewrite (IH ps' eq_refl Ha). inversion Hb. by destruct kept.
Qed.

Lemma comprehension_cons_dict (d : gmap string pyval) (rest : list pyval) qs :
  comprehension rest = Ok qs ->
  comprehension (PDict d :: rest) =
    Ok (let pid := default PNone (d !! "pid") in
        let order := default PNone (d !! "order") in
        if truthy pid && is_not_None order then (pid, order) :: qs else qs).
Proof.
  intros H. cbn [comprehension]. rewrite child_entry_dict, H. cbv zeta.
  by destruct (truthy _ && is_not_None _).
Qed.

Lemma child_entry_kept (child : pyval) (p : pyval * pyval) :
  child_entry child = Ok (Some p) -> passes_filter p.
Proof.
  unfold child_entry, passes_filter.
  destruct (py_get child "pid") as [pid|]; [|done].
  destruct (truthy pid) eqn:Hpid; [|done].
  destruct (py_get child "order") as [order|]; [|done].
  destruct (is_not_None order) eqn:Horder; [|done].
  by intros [= <-].
Qed.

(** The list that the comprehension returns is filtered. *)
Lemma comprehension_filtered (children : list pyval) ps :
  comprehension children = Ok ps -> Forall passes_filter ps.
Proof.
  revert ps. induction children as [|child rest IH]; simpl; intros ps.
  - by intros [= <-].
  - destruct (child_entry child) as [kept|] eqn:Hc; [|done].
    destruct (comprehension rest) as [qs|]; [|done].
    intros [= <-]. destruct kept as [p|]; [|by apply IH].
    constructor; [by apply (child_entry_kept child) | by apply IH].
Qed.

(** A descriptor that fails the test contributes nothing. *)
Lemma comprehension_dropped (d : gmap string pyval) (before after : list pyval) ps qs :
  truthy (default PNone (d !! "pid")) && is_not_None (default PNone (d !! "order"))
    = false ->
  comprehension before = Ok ps ->
  comprehension after = Ok qs ->
  comprehension (before ++ PDict d :: after) = Ok (ps ++ qs).
Proof.
  intros Hd Hb Ha. apply comprehension_app; [done|].
  rewrite (comprehension_cons_dict _ _ _ Ha). cbv zeta. by rewrite Hd.
Qed.

(** C10: the filter of the comprehension tests the pid by truthiness and
    the order against [None] only.  So a descriptor whose pid is the empty
    string is dropped, although both fields are present, and a descriptor
    with a non-empty pid and order 0 is kept.  More generally, a descriptor
    is dropped when its order is missing or [null], whatever its pid, and
    when its pid is missing, [null], [false], 0, an empty list or an empty
    object, whatever its order; a descriptor with a non-empty string as
    its pid is kept with any order other than [null]: 0, [false] and the
    empty string included. *)
Theorem C10_filter_by_truthy_pid_and_non_null_order (d : gmap string pyval) :
  child_entry (PDict d) =
    Ok (let pid := default PNone (d !! "pid") in
        let order := default PNone (d !! "order") in
        if truthy pid && is_not_None order then Some (pid, order) else None)
  /\ (forall order before after ps qs,
        d !! "pid" = Some (PStr EmptyString) ->
        d !! "order" = Some order ->
        comprehension before = Ok ps ->
        comprehension after = Ok qs ->
        comprehension (before ++ PDict d :: after) = Ok (ps ++ qs))
  /\ (forall pid before after ps qs,
        pid <> EmptyString ->
        d !! "pid" = Some (PStr pid) ->
        d !! "order" = Some (PInt 0) ->
        comprehension before = Ok ps ->
        comprehension after = Ok qs ->
        comprehension (before ++ PDict d :: after)
          = Ok (ps ++ (PStr pid, PInt 0) :: qs))
  /\ (forall before after ps qs,
        d !! "order" = None \/ d !! "order" = Some PNone ->
        comprehension before = Ok ps ->
        comprehension after = Ok qs ->
        comprehension (before ++ PDict d :: after) = Ok (ps ++ qs))
  /\ (forall before after ps qs,
        d !! "pid" = None \/ d !! "pid" = Some PNone
        \/ d !! "pid" = Some (PBool false) \/ d !! "pid" = Some (PInt 0)
        \/ d !! "pid" = Some (PList []) \/ d !! "pid" = Some (PDict ∅) ->
        comprehension before = Ok ps ->
        comprehension after = Ok qs ->
        comprehension (before ++ PDict d :: after) = Ok (ps ++ qs))
  /\ (forall pid order before after ps qs,
        pid <> EmptyString ->
        d !! "pid" = Some (PStr pid) ->
        d !! "order" = Some order ->
        order <> PNone ->
        comprehension before = Ok ps ->
        comprehension after = Ok qs ->
        comprehension (before ++ PDict d :: after)
          = Ok (ps ++ (PStr pid, order) :: qs)).
Proof.
  split; [apply child_entry_dict|]. split; [|split; [|split; [|split]]].
  - intros order before after ps qs Hpid _ Hb Ha.
    apply comprehension_app; [done|].
    rewrite (comprehension_cons_dict _ _ _ Ha), Hpid. done.
  - intros pid before after ps qs Hne Hpid Horder Hb Ha.
    apply comprehension_app; [done|].
    rewrite (comprehension_cons_dict _ _ _ Ha), Hpid, Horder.
    destruct pid; done.
  - intros before after ps qs Horder. apply comprehension_dropped.
    destruct Horder as [-> | ->]; apply andb_false_r.
  - intros before after ps qs Hpid. apply comprehension_dropped.
    destruct Hpid as [-> | [-> | [-> | [-> | [-> | ->]]]]]; done.
  - intros pid order before after ps qs Hne Hpid Horder Hnull Hb Ha.
    apply comprehension_app; [done|].
    rewrite (comprehension_cons_dict _ _ _ Ha), Hpid, Horder.
    destruct pid; [done|]. by destruct order.
Qed.

Lemma C10_witness :
  comprehension
    ([child_descriptor (PStr "a:1") (PInt 1)]
       ++ child_descriptor (PStr EmptyString) (PInt 2)
       :: [child_descriptor (PStr "a:3") (PInt 3)])
    = Ok ([(PStr "a:1", PInt 1)] ++ [(PStr "a:3", PInt 3)])
  /\ comprehension
       ([child_descriptor (PStr "a:1") (PInt 1)]
          ++ child_descriptor (PStr "a:0") (PInt 0)
          :: [child_descriptor (PStr "a:3") (PInt 3)])
     = Ok ([(PStr "a:1", PInt 1)] ++ (PStr "a:0", PInt 0) :: [(PStr "a:3", PInt 3)])
  /\ comprehension
       ([child_descriptor (PStr "a:1") (PInt 1)]
          ++ child_descriptor (PStr "a:2") PNone
          :: [child_descriptor (PStr "a:3") (PInt 3)])
     = Ok ([(PStr "a:1", PInt 1)] ++ [(PStr "a:3", PInt 3)])
  /\ comprehension
       ([child_descriptor (PStr "a:1") (PInt 1)]
          ++ PDict {[ "pid" := PStr "a:2" ]}
          :: [child_descriptor (PStr "a:3") (PInt 3)])
     = Ok ([(PStr "a:1", PInt 1)] ++ [(PStr "a:3", PInt 3)])
  /\ comprehension
       ([child_descriptor (PStr "a:1") (PInt 1)]
          ++ PDict {[ "order" := PInt 2 ]}
          :: [child_descriptor (PStr "a:3") (PInt 3)])
     = Ok ([(PStr "a:1", PInt 1)] ++ [(PStr "a:3", PInt 3)])
  /\ comprehension
       ([child_descriptor (PStr "a:1") (PInt 1)]
          ++ child_descriptor (PStr "a:2") (PBool false)
          :: [child_descriptor (PStr "a:3") (PInt 3)])
     = Ok ([(PStr "a:1", PInt 1)] ++ (PStr "a:2", PBool false) :: [(PStr "a:3", PInt 3)]).
Proof.
  split; [|split; [|split; [|split; [|split]]]].
  - apply (proj1 (proj2 (C10_filter_by_truthy_pid_and_non_null_order
                           (<["pid" := PStr EmptyString]> (<["order" := PInt 2]> ∅))))
             (PInt 2)); reflexivity.
  - apply (proj1 (proj2 (proj2 (C10_filter_by_truthy_pid_and_non_null_order
                           (<["pid" := PStr "a:0"]> (<["order" := PInt 0]> ∅)))))
             "a:0"); [discriminate | reflexivity ..].
  - destruct (C10_filter_by_truthy_pid_and_non_null_order
                (<["pid" := PStr "a:2"]> (<["order" := PNone]> ∅)))
      as (_ & _ & _ & H & _).
    apply H; [right; reflexivity | reflexivity ..].
  - destruct (C10_filter_by_truthy_pid_and_non_null_order
                {[ "pid" := PStr "a:2" ]})
      as (_ & _ & _ & H & _).
    apply H; [left; reflexivity | reflexivity ..].
  - destruct (C10_filter_by_truthy_pid_and_non_null_order
                {[ "order" := PInt 2 ]})
      as (_ & _ & _ & _ & H & _).
    apply H; [left; reflexivity | reflexivity ..].
  - destruct (C10_filter_by_truthy_pid_and_non_null_order
                (<["pid" := PStr "a:2"]> (<["order" := PBool false]> ∅)))
      as (_ & _ & _ & _ & _ & H).
    apply (H "a:2" (PBool false)); [discriminate | reflexivity | reflexivity | discriminate | reflexivity ..].
Defined.

(** C7: on the record with the children a:1 (order 1), a:2 (order null)
    and a:3 (order 2), the extraction returns the pairs of a:1 and a:3, in
    that order, and reports two children. *)
Theorem C7_sample_record_yields_two_pairs (s : state) :
  get_child_pids sample_record s
    = Run (Returns [(PStr "a:1", PInt 1); (PStr "a:3", PInt 2)]) s
          [Stdout "Found 2 child PIDs."].
Proof. reflexivity. Qed.

(** C6: with a pid that is empty once trimmed, the program prints
    [Error: PID cannot be empty.] on standard error and exits with code 1;
    it emits nothing else, so it calls [urlopen] for no URL, and it leaves
    the state as it was. *)
Theorem C6_empty_pid_exits_1 (env : Env) (pid output : string) (s : state) :
  PyStr.strip pid = EmptyString ->
  program env pid output s = (1%Z, s, [Stderr "Error: PID cannot be empty."])
  /\ requested (program env pid output s).2 = [].
Proof.
  intros H. unfold program, main. rewrite H. done.
Qed.

Lemma C6_witness :
  PyStr.strip "  " = EmptyString
  /\ program (sample_env 200 sample_record true None) "  " "out" empty_disk
       = (1%Z, empty_disk, [Stderr "Error: PID cannot be empty."]).
Proof.
  split; [reflexivity|].
  apply (C6_empty_pid_exits_1 (sample_env 200 sample_record true None) "  " "out").
  reflexivity.
Defined.

(** ** Invariants of a run

    A property [I] of the state and a property [T] of the emitted events
    that every step of the script keeps; below [main], no step exits. *)

Create HintDb keeps.

Section Invariant.

Context (I : state -> Prop) (T : list event -> Prop).

Hypothesis T_nil : T [].
Hypothesis T_app : forall evs1 evs2, T evs1 -> T evs2 -> T (evs1 ++ evs2).
Hypothesis T_stderr : forall line, T [Stderr line].
Hypothesis T_request : forall url, T [Request url].
Hypothesis T_progress : forall n, T [Progress n].
Hypothesis I_request :
  forall s, I s -> I (State (fs s) (S (requests s))).
Hypothesis I_insert :
  forall s path n, I s -> I (State (<[path := n]> (fs s)) (requests s)).

Local Abbreviation keeps := (keeps I T).

Lemma keeps_ret {A} (a : A) : keeps (ret a).
Proof. intros s Hs. by repeat split. Qed.

Lemma keeps_raise {A} (e : exn) : keeps (@raise A e).
Proof. intros s Hs. by repeat split. Qed.

Lemma keeps_lift {A} (r : result A) : keeps (lift r).
Proof. destruct r; [apply keeps_ret | apply keeps_raise]. Qed.

Lemma keeps_emit (ev : event) : T [ev] -> keeps (emit ev).
Proof. intros Hev s Hs. by repeat split. Qed.

Lemma keeps_eprint (line : string) : keeps (eprint line).
Proof. apply keeps_emit, T_stderr. Qed.

Lemma keeps_bind {A B} (m : M A) (k : A -> M B) :
  keeps m -> (forall a, keeps (k a)) -> keeps (bind m k).
Proof.
  intros Hm Hk s Hs. unfold bind.
  destruct (Hm s Hs) as (Hs1 & He1 & Hx1).
  destruct (res (m s)) as [a|e|code]; simpl; [|done|by destruct (Hx1 code)].
  destruct (Hk a _ Hs1) as (Hs2 & He2 & Hx2). auto.
Qed.

Lemma keeps_try_except {A} (m : M A) (handler : exn -> M A) :
  keeps m -> (forall e, keeps (handler e)) -> keeps (try_except m handler).
Proof.
  intros Hm Hh s Hs. unfold try_except.
  destruct (Hm s Hs) as (Hs1 & He1 & Hx1).
  destruct (res (m s)) as [a|e|code] eqn:Hr; simpl; rewrite ?Hr; [done| |done].
  destruct (Hh e _ Hs1) as (Hs2 & He2 & Hx2). auto.
Qed.

Lemma keeps_try_clauses {A} (m : M A) (clauses : exn -> option (M A)) :
  keeps m -> (forall e h, clauses e = Some h -> keeps h) ->
  keeps (try_clauses m clauses).
Proof.
  intros Hm Hh s Hs. unfold try_clauses.
  destruct (Hm s Hs) as (Hs1 & He1 & Hx1).
  destruct (res (m s)) as [a|e|code] eqn:Hr; simpl; rewrite ?Hr; [done| |done].
  destruct (clauses e) as [h|] eqn:Hc; [|by rewrite Hr].
  destruct (Hh e h Hc _ Hs1) as (Hs2 & He2 & Hx2). simpl. auto.
Qed.

Lemma keeps_path_exists (path : string) : keeps (path_exists path).
Proof. intros s Hs. by repeat split. Qed.

Lemma keeps_urlopen (env : Env) (url : string) : keeps (urlopen env url).
Proof.
  intros s Hs. unfold urlopen.
  destruct (http env (requests s) url) as [status reason payload|e];
    [destruct (_ && _)|]; simpl; auto.
Qed.

Lemma keeps_read (b : body) : keeps (read b).
Proof. destruct b; [apply keeps_ret | apply keeps_raise]. Qed.

Lemma keeps_open_wb (env : Env) (path : string) : keeps (open_wb env path).
Proof.
  intros s Hs. unfold open_wb. destruct (open_fault env path); simpl; auto.
Qed.

Lemma keeps_write (env : Env) (path : string) (data : list Byte.byte) :
  keeps (write env path data).
Proof.
  intros s Hs. unfold write.
  destruct (write_fault env path data) as [[k e]|]; simpl; auto.
Qed.

Lemma I_add_dirs (dirs : list string) (s : state) :
  I s -> I (State (add_dirs dirs (fs s)) (requests s)).
Proof.
  intros Hs. induction dirs as [|d dirs IH]; cbn [add_dirs foldr].
  - by destruct s.
  - fold (add_dirs dirs (fs s)).
    destruct (add_dirs dirs (fs s) !! d); [done|].
    apply (I_insert _ d Dir) in IH. done.
Qed.

Lemma keeps_mkdir (env : Env) (path : string) : keeps (mkdir env path).
Proof.
  intros s Hs. unfold mkdir.
  destruct (fs s !! path) as [[c|]|]; simpl; auto.
  pose proof (I_add_dirs (mkdir_parents env path) s Hs) as H1.
  destruct (mkdir_fault env path); simpl; auto.
  split; [|done]. apply (I_insert _ path Dir) in H1. done.
Qed.

Hint Resolve keeps_ret keeps_raise keeps_lift keeps_eprint
  keeps_path_exists keeps_urlopen keeps_read keeps_open_wb keeps_write
  keeps_mkdir : keeps.

Ltac keeps_steps :=
  repeat first
    [ progress eauto with keeps
    | apply keeps_bind; [|intros ?]
    | apply keeps_try_except; [|intros ?] ].

Lemma keeps_fetch_parent_data (env : Env) (pid : string) :
  keeps (fetch_parent_data env pid).
Proof.
  unfold fetch_parent_data. apply keeps_try_clauses; [keeps_steps|].
  intros e h Hh. destruct e; inversion Hh; subst; keeps_steps.
Qed.

(** The part of [download_image] that runs when the destination is not
    there yet. *)
Lemma keeps_transfer (env : Env) (image_url output_path : string) :
  keeps
    (try_except
       (response <- urlopen env image_url ;;
        open_wb env output_path ;;;
        data <- read response ;;
        write env output_path data)
       (fun e =>
          eprint ("Failed to download image from " +:+ image_url +:+ ": "
                    +:+ exn_str e) ;;;
          raise e)).
Proof. keeps_steps. Qed.

Hypothesis T_found : forall n, T [Stdout (found_notice n)].

Lemma keeps_get_child_pids (data : pyval) : keeps (get_child_pids data).
Proof.
  unfold get_child_pids.
  apply keeps_bind; [keeps_steps | intros relations].
  destruct (negb (truthy relations)); [keeps_steps|].
  apply keeps_bind; [keeps_steps | intros children].
  destruct (negb (truthy children)); [keeps_steps|].
  apply keeps_bind; [keeps_steps | intros items].
  apply keeps_bind; [keeps_steps | intros pairs].
  destruct (_ || _); [keeps_steps|].
  apply keeps_bind; [|keeps_steps]. apply keeps_emit, T_found.
Qed.

Hypothesis keeps_download_image :
  forall env image_url output_path,
    keeps (download_image env image_url output_path).

Lemma keeps_process_child (env : Env) (output_dir : string) child :
  keeps (process_child env output_dir child).
Proof. destruct child as [pid page]. unfold process_child. keeps_steps. Qed.

Lemma keeps_for_children (env : Env) (output_dir : string) child_pids :
  keeps (for_children env output_dir child_pids).
Proof.
  induction child_pids as [|child rest IH]; simpl; [apply keeps_ret|].
  apply keeps_bind; [apply keeps_process_child | done].
Qed.

Lemma keeps_download_images_for_children (env : Env) child_pids output_dir :
  keeps (download_images_for_children env child_pids output_dir).
Proof.
  unfold download_images_for_children.
  apply keeps_bind; [by apply keeps_emit | intros _; apply keeps_for_children].
Qed.

(** The [try] block of [main]. *)
Lemma keeps_pipeline (env : Env) (pid output_dir : string) :
  keeps
    (data <- fetch_parent_data env pid ;;
     child_pids <- get_child_pids data ;;
     download_images_for_children env child_pids output_dir).
Proof.
  apply keeps_bind; [apply keeps_fetch_parent_data | intros data].
  apply keeps_bind; [apply keeps_get_child_pids | intros child_pids].
  apply keeps_download_images_for_children.
Qed.

(** [main] keeps [I] and [T]; it exits with code 1 only, and then the
    last thing it has done is to print on standard error. *)
Lemma main_keeps (env : Env) (pid output : string) (s : state) :
  I s ->
  let r := main env pid output s in
  I (final r) /\ T (emitted r) /\
  forall code, res r = Exits code ->
    code = 1%Z /\ exists before line, emitted r = before ++ [Stderr line].
Proof.
  intros Hs. unfold main.
  destruct (PyStr.is_empty _).
  { simpl. repeat split; auto; try congruence. by eexists [], _. }
  set (inner := bind (fetch_parent_data env pid) _).
  destruct (keeps_mkdir env (path_str env output) s Hs) as (Hs1 & He1 & Hx1).
  pose proof (keeps_pipeline env pid (path_str env output) _ Hs1)
    as (Hs2 & He2 & Hx2).
  fold inner in Hs2, He2, Hx2.
  unfold bind, try_except. cbv zeta beta.
  set (r1 := mkdir env (path_str env output) s) in *.
  destruct (res r1) as [[]|e|code]; cbn [res final emitted];
    [|by repeat split; auto|by destruct (Hx1 code)].
  set (r2 := inner (final r1)) in *.
  destruct (res r2) as [[]|e|code] eqn:Hr2; cbn [res final emitted];
    [| |by destruct (Hx2 code)].
  - split; [done|]. split; [by apply T_app|]. rewrite Hr2. by intros code [=].
  - rewrite app_nil_r. split; [done|].
    split; [apply T_app; [done | apply T_app; [done | apply T_stderr]]|].
    intros code [= <-]. split; [done|]. rewrite !app_assoc. by eexists _, _.
Qed.

Hypothesis T_traceback : forall e, T [Traceback e].

(** A run of the program keeps [T]; its exit code is 0 or 1, and when it
    is 1 the last thing the run does is to report on standard error. *)
Lemma program_keeps (env : Env) (pid output : string) (s : state) :
  I s ->
  let '(code, s', evs) := program env pid output s in
  T evs /\ (code = 0%Z \/
           code = 1%Z /\ exists before ev, evs = before ++ [ev] /\ on_stderr ev).
Proof.
  intros Hs. unfold program.
  destruct (main_keeps env pid output s Hs) as (_ & He & Hx).
  destruct (res (main env pid output s)) as [[]|e|code]; cbv zeta.
  - auto.
  - split; [auto|]. right. split; [done|]. by eexists _, (Traceback e).
  - destruct (Hx code eq_refl) as (-> & before & line & Hev).
    split; [done|]. right. split; [done|]. by exists before, (Stderr line).
Qed.

End Invariant.

(** ** Calls, requests and lines of a run *)

Lemma calls_app (evs1 evs2 : list event) :
  calls (evs1 ++ evs2) = calls evs1 ++ calls evs2.
Proof.
  induction evs1 as [|[] evs1 IH]; simpl; auto. by rewrite IH.
Qed.

Lemma requested_app (evs1 evs2 : list event) :
  requested (evs1 ++ evs2) = requested evs1 ++ requested evs2.
Proof.
  induction evs1 as [|[] evs1 IH]; simpl; auto. by rewrite IH.
Qed.

Lemma stdout_lines_ok (evs : list event) (line : string) :
  Forall stdout_ok evs -> line ∈ stdout_lines evs -> is_notice line.
Proof.
  induction 1 as [|ev evs Hev _ IH]; simpl; [by intros ?%elem_of_nil|].
  destruct ev; auto. intros [->|?]%elem_of_cons; auto.
Qed.

(** ** [download_image], case by case *)

Lemma download_image_exists env (image_url output_path : string) (s : state) :
  is_Some (fs s !! output_path) ->
  download_image env image_url output_path s
    = Run (Returns tt) s
          [Call image_url output_path; Stdout (skip_notice output_path)].
Proof.
  intros H. unfold download_image, bind, emit, path_exists. simpl.
  by rewrite bool_decide_eq_true_2.
Qed.

Lemma download_image_absent env (image_url output_path : string) (s : state) :
  fs s !! output_path = None ->
  download_image env image_url output_path s
    = let r :=
        try_except
          (response <- urlopen env image_url ;;
           open_wb env output_path ;;;
           data <- read response ;;
           write env output_path data)
          (fun e =>
             eprint ("Failed to download image from " +:+ image_url +:+ ": "
                       +:+ exn_str e) ;;;
             raise e) s in
      Run (res r) (final r) (Call image_url output_path :: emitted r).
Proof.
  intros H. unfold download_image, bind at 1 2, emit, path_exists. simpl.
  rewrite bool_decide_eq_false_2; [done|]. rewrite H. by intros [? ?].
Qed.

(** ** Destinations that exist are skipped *)

Lemma skips_nil fs0 : skips_existing fs0 [].
Proof. intros [|??] ??? ?; done. Qed.

Lemma skips_app fs0 (evs1 evs2 : list event) :
  skips_existing fs0 evs1 -> skips_existing fs0 evs2 ->
  skips_existing fs0 (evs1 ++ evs2).
Proof.
  intros H1 H2 before u p after Heq Hp.
  apply app_eq_inv in Heq as [(k & -> & Hk)|(k & -> & ->)].
  - destruct k as [|ev k]; simpl in Hk.
    + subst evs2. by apply (H2 [] u p after).
    + inversion Hk; subst.
      destruct (H1 before u p k eq_refl Hp) as [after' ->]. by eexists.
  - by apply (H2 k u p after).
Qed.

Lemma skips_other fs0 (ev : event) :
  (forall u p, ev <> Call u p) -> skips_existing fs0 [ev].
Proof.
  intros Hev [|? [|??]] u p after Heq; inversion Heq; subst. by destruct (Hev u p).
Qed.

Lemma skips_call_absent fs0 (u p : string) (evs : list event) :
  fs0 !! p = None -> skips_existing fs0 evs ->
  skips_existing fs0 (Call u p :: evs).
Proof.
  intros Hp H [|ev before] u' p' after Heq Hp'; inversion Heq; subst.
  - rewrite Hp in Hp'. by destruct Hp'.
  - by apply (H before u' p' after).
Qed.

Lemma skips_call_skipped fs0 (u p : string) :
  skips_existing fs0 [Call u p; Stdout (skip_notice p)].
Proof.
  intros [|? [|? [|??]]] u' p' after Heq _; inversion Heq; subst. by eexists.
Qed.

Lemma grows_request fs0 (s : state) :
  grows fs0 s -> grows fs0 (State (fs s) (S (requests s))).
Proof. intros Hs p Hp. by apply Hs. Qed.

Lemma grows_insert fs0 (s : state) (path : string) (n : node) :
  grows fs0 s -> grows fs0 (State (<[path := n]> (fs s)) (requests s)).
Proof.
  intros Hs p Hp. simpl.
  destruct (decide (path = p)) as [->|Hne];
    [rewrite lookup_insert_eq | rewrite lookup_insert_ne]; eauto.
Qed.

Lemma keeps_download_image_skips fs0 env (image_url output_path : string) :
  keeps (grows fs0) (skips_existing fs0)
    (download_image env image_url output_path).
Proof.
  intros s Hs. destruct (fs s !! output_path) as [n|] eqn:Hp.
  - rewrite download_image_exists by eauto. simpl.
    split; [done|]. split; [apply skips_call_skipped | done].
  - rewrite download_image_absent by done. cbv zeta. cbn [res final emitted].
    edestruct (keeps_transfer (grows fs0) (skips_existing fs0))
      as (Hs' & He' & Hx'); [..|exact Hs|].
    + apply skips_nil.
    + apply skips_app.
    + intros line. by apply skips_other.
    + intros url. by apply skips_other.
    + apply grows_request.
    + apply grows_insert.
    + split; [exact Hs'|]. split; [|exact Hx'].
      apply skips_call_absent; [|exact He'].
      destruct (fs0 !! output_path) eqn:H0; [|done].
      destruct (Hs output_path) as [? Hc]; [eauto|congruence].
Qed.

Lemma program_skips_existing env (pid output : string) (s : state) :
  skips_existing (fs s) (program env pid output s).2.
Proof.
  pose proof (program_keeps (grows (fs s)) (skips_existing (fs s))) as H.
  specialize (H (skips_nil _) (skips_app _)).
  specialize (H (fun line => skips_other _ (Stderr line) ltac:(done))).
  specialize (H (fun url => skips_other _ (Request url) ltac:(done))).
  specialize (H (fun n => skips_other _ (Progress n) ltac:(done))).
  specialize (H (grows_request _) (grows_insert _)).
  specialize (H (fun n => skips_other _ (Stdout (found_notice n)) ltac:(done))).
  specialize (H (keeps_download_image_skips _)).
  specialize (H (fun e => skips_other _ (Traceback e) ltac:(done))).
  specialize (H env pid output s ltac:(by intros p Hp)).
  destruct (program env pid output s) as [[code s'] evs]. apply H.
Qed.

(** ** What reaches standard output *)

Lemma Forall_stdout_ok_app (evs1 evs2 : list event) :
  Forall stdout_ok evs1 -> Forall stdout_ok evs2 -> Forall stdout_ok (evs1 ++ evs2).
Proof. intros. by apply Forall_app. Qed.

Lemma stdout_ok_single (ev : event) : stdout_ok ev -> Forall stdout_ok [ev].
Proof. by repeat constructor. Qed.

Lemma keeps_download_image_stdout env (image_url output_path : string) :
  keeps (fun _ => True) (Forall stdout_ok)
    (download_image env image_url output_path).
Proof.
  intros s _. destruct (fs s !! output_path) as [n|] eqn:Hp.
  - rewrite download_image_exists by eauto. simpl.
    split; [done|]. split; [|done].
    constructor; [done|]. constructor; [|done]. right. by eexists.
  - rewrite download_image_absent by done. cbv zeta. cbn [res final emitted].
    edestruct (keeps_transfer (fun _ => True) (Forall stdout_ok))
      as (_ & He' & Hx'); [..|exact I|].
    + constructor.
    + apply Forall_stdout_ok_app.
    + intros line. by apply stdout_ok_single.
    + intros url. by apply stdout_ok_single.
    + done.
    + done.
    + split; [done|]. split; [|exact Hx']. by constructor.
Qed.

Lemma program_stdout env (pid output : string) (s : state) :
  let '(code, s', evs) := program env pid output s in
  Forall stdout_ok evs /\
  (code = 0%Z \/
   code = 1%Z /\ exists before ev, evs = before ++ [ev] /\ on_stderr ev).
Proof.
  apply (program_keeps (fun _ => True) (Forall stdout_ok)
           (Forall_nil_2 _) Forall_stdout_ok_app
           (fun line => stdout_ok_single (Stderr line) I)
           (fun url => stdout_ok_single (Request url) I)
           (fun n => stdout_ok_single (Progress n) I)
           (fun _ _ => I) (fun _ _ _ _ => I)
           (fun n => stdout_ok_single (Stdout (found_notice n))
                       (or_introl (ex_intro _ n eq_refl)))
           keeps_download_image_stdout
           (fun e => stdout_ok_single (Traceback e) I)
           env pid output s I).
Qed.

(** ** The calls the loop makes *)

Lemma transfer_calls env (image_url output_path : string) (s : state) :
  calls (emitted
    (try_except
       (response <- urlopen env image_url ;;
        open_wb env output_path ;;;
        data <- read response ;;
        write env output_path data)
       (fun e =>
          eprint ("Failed to download image from " +:+ image_url +:+ ": "
                    +:+ exn_str e) ;;;
          raise e) s)) = [].
Proof.
  edestruct (keeps_transfer (fun _ => True) (fun evs => calls evs = []))
    as (_ & He & _); [..|exact I|exact He]; try done.
  intros evs1 evs2 H1 H2. by rewrite calls_app, H1, H2.
Qed.

Lemma download_image_calls env (image_url output_path : string) (s : state) :
  calls (emitted (download_image env image_url output_path s))
    = [(image_url, output_path)].
Proof.
  destruct (fs s !! output_path) as [n|] eqn:Hp.
  - by rewrite download_image_exists by eauto.
  - rewrite download_image_absent by done. cbv zeta. cbn [emitted calls].
    by rewrite transfer_calls.
Qed.

Lemma download_image_no_exit env (image_url output_path : string) (s : state) code :
  res (download_image env image_url output_path s) <> Exits code.
Proof.
  by destruct (keeps_download_image_stdout env image_url output_path s I)
    as (_ & _ & Hx).
Qed.

(** What a turn of the loop does, from what [download_image] does. *)
Lemma process_child_run env (output_dir : string) pid page (s : state) :
  let r := download_image env (image_url_of env pid)
             (output_path_of env output_dir page) s in
  process_child env output_dir (pid, page) s =
    match res r with
    | Raises e =>
        Run (Raises e) (final r)
          (emitted r ++
             [Stderr ("Error processing PID " +:+ py_str env pid +:+ ": "
                        +:+ exn_str e)])
    | _ => r
    end.
Proof.
  cbv zeta. unfold process_child, try_except, output_path_of.
  destruct (res (download_image _ _ _ _)); try done.
Qed.

Lemma process_child_calls env (output_dir : string) child (s : state) :
  calls (emitted (process_child env output_dir child s))
    = [call_for env output_dir child].
Proof.
  destruct child as [pid page]. rewrite process_child_run. cbv zeta.
  pose proof (download_image_calls env (image_url_of env pid)
                (output_path_of env output_dir page) s) as Hc.
  destruct (res (download_image _ _ _ _)); cbn [emitted];
    rewrite ?calls_app, Hc; done.
Qed.

Lemma for_children_calls env (output_dir : string) child_pids (s : state) :
  let r := for_children env output_dir child_pids s in
  calls (emitted r) `prefix_of` (call_for env output_dir <$> child_pids)
  /\ (res r = Returns tt ->
      calls (emitted r) = call_for env output_dir <$> child_pids).
Proof.
  cbv zeta. revert s.
  induction child_pids as [|child rest IH]; intros s; [done|].
  cbn [for_children fmap list_fmap]. unfold bind.
  pose proof (process_child_calls env output_dir child s) as Hc.
  destruct (res (process_child env output_dir child s)) as [[]|e|code];
    cbn [res emitted].
  - destruct (IH (final (process_child env output_dir child s))) as [Hp Heq].
    rewrite calls_app, Hc. split.
    + by apply prefix_cons.
    + intros Hr. by rewrite (Heq Hr).
  - rewrite Hc. split; [|done]. apply prefix_cons, prefix_nil.
  - rewrite Hc. split; [|done]. apply prefix_cons, prefix_nil.
Qed.

(** ** The loop, step by step *)

Lemma run_eta {A} (r : run A) : Run (res r) (final r) (emitted r) = r.
Proof. by destruct r. Qed.

Lemma bind_assoc {A B C} (m : M A) (k : A -> M B) (h : B -> M C) (s : state) :
  bind (bind m k) h s = bind m (fun a => bind (k a) h) s.
Proof.
  unfold bind. destruct (res (m s)) as [a|e|code]; cbn [res final emitted];
    [|done..].
  destruct (res (k a _)); cbn [res final emitted]; by rewrite ?app_assoc.
Qed.

Lemma for_children_app env (output_dir : string) before after (s : state) :
  for_children env output_dir (before ++ after) s
    = bind (for_children env output_dir before)
        (fun _ => for_children env output_dir after) s.
Proof.
  revert s. induction before as [|child before IH]; intros s.
  - unfold bind. simpl. by rewrite run_eta.
  - cbn [for_children app]. rewrite bind_assoc. unfold bind at 1 2.
    destruct (res (process_child env output_dir child s)) as [[]|e|code];
      cbn [res final emitted]; [|done..].
    by rewrite IH.
Qed.

Lemma for_children_all_present env (output_dir : string) child_pids (s : state) :
  Forall (fun child => is_Some (fs s !! output_path_of env output_dir child.2))
    child_pids ->
  let r := for_children env output_dir child_pids s in
  res r = Returns tt /\ final r = s /\ requested (emitted r) = [].
Proof.
  cbv zeta. induction 1 as [|[pid page] rest Hc _ IH]; [done|].
  cbn [for_children]. unfold bind.
  rewrite process_child_run. cbv zeta.
  rewrite download_image_exists by done. cbn [res final emitted].
  destruct IH as (-> & -> & Hr). by rewrite requested_app, Hr.
Qed.

Lemma for_children_raises env (output_dir : string) child_pids (s : state) e :
  res (for_children env output_dir child_pids s) = Raises e ->
  exists before pid page after evs,
    child_pids = before ++ (pid, page) :: after
    /\ emitted (for_children env output_dir child_pids s)
       = evs ++ [Stderr ("Error processing PID " +:+ py_str env pid +:+ ": "
                           +:+ exn_str e)]
    /\ calls (emitted (for_children env output_dir child_pids s))
       = call_for env output_dir <$> (before ++ [(pid, page)]).
Proof.
  revert s. induction child_pids as [|[pid page] rest IH]; intros s; [done|].
  cbn [for_children]. unfold bind. rewrite process_child_run. cbv zeta.
  pose proof (download_image_calls env (image_url_of env pid)
                (output_path_of env output_dir page) s) as Hc.
  set (r := download_image env (image_url_of env pid)
              (output_path_of env output_dir page) s) in *.
  destruct (res r) as [[]|e'|code] eqn:Hr; rewrite ?Hr; cbn [res final emitted].
  - intros Hrest.
    destruct (IH _ Hrest) as (before & p & g & after & evs & -> & He & Hcs).
    exists ((pid, page) :: before), p, g, after, (emitted r ++ evs).
    split; [done|]. split; [by rewrite He, app_assoc|].
    by rewrite calls_app, Hc, Hcs.
  - intros [= ->]. exists [], pid, page, rest, (emitted r).
    split; [done|]. split; [done|]. by rewrite calls_app, Hc.
  - done.
Qed.

(** ** [main], step by step *)

Lemma is_empty_false (s : string) :
  s <> EmptyString -> PyStr.is_empty s = false.
Proof. by destruct s. Qed.

(** [mkdir] prints nothing and makes no request. *)
Lemma mkdir_cases env (path : string) (s : state) :
  (exists e fs', mkdir env path s = Run (Raises e) (State fs' (requests s)) [])
  \/ (exists fs', mkdir env path s = Run (Returns tt) (State fs' (requests s)) []).
Proof.
  unfold mkdir. destruct s as [fs0 n]. simpl.
  destruct (fs0 !! path) as [[c|]|]; eauto.
  destruct (mkdir_fault env path); eauto.
Qed.

(** A run of [main] whose [try] block ends with an exception. *)
Lemma main_handles env (pid output : string) (s s1 s2 : state) evs e :
  PyStr.strip pid <> EmptyString ->
  mkdir env (path_str env output) s = Run (Returns tt) s1 [] ->
  (data <- fetch_parent_data env pid ;;
   child_pids <- get_child_pids data ;;
   download_images_for_children env child_pids (path_str env output)) s1
    = Run (Raises e) s2 evs ->
  program env pid output s
    = (1%Z, s2, evs ++ [Stderr ("Error: " +:+ exn_str e)]).
Proof.
  intros Hpid Hmk Hrun.
  assert (main env pid output s
          = Run (Exits 1) s2 (evs ++ [Stderr ("Error: " +:+ exn_str e)])) as Hmain.
  { unfold main. rewrite (is_empty_false _ Hpid).
    unfold bind at 1. rewrite Hmk. cbn [res final emitted].
    unfold try_except. by rewrite Hrun. }
  unfold program. by rewrite Hmain.
Qed.

(** A run of [main] in which the directory cannot be made. *)
Lemma main_without_directory env (pid output : string) (s s1 : state) e :
  PyStr.strip pid <> EmptyString ->
  mkdir env (path_str env output) s = Run (Raises e) s1 [] ->
  program env pid output s = (1%Z, s1, [Traceback e]).
Proof.
  intros Hpid Hmk.
  assert (main env pid output s = Run (Raises e) s1 []) as Hmain.
  { unfold main. rewrite (is_empty_false _ Hpid).
    unfold bind at 1. by rewrite Hmk. }
  unfold program. by rewrite Hmain.
Qed.

(** ** Fetching the record *)

Lemma fetch_parent_data_ok env (pid : string) (s : state) status reason raw data :
  http env (requests s) (item_url pid) = Response status reason (Body raw) ->
  (200 <= status < 300)%Z ->
  json_loads env raw = Ok data ->
  fetch_parent_data env pid s
    = Run (Returns data) (State (fs s) (S (requests s))) [Request (item_url pid)].
Proof.
  intros Hhttp Hstatus Hjson.
  unfold fetch_parent_data, try_clauses, bind, urlopen. cbv zeta.
  rewrite Hhttp.
  replace ((200 <=? status)%Z && (status <? 300)%Z) with true by lia.
  cbn. by rewrite Hjson.
Qed.

Lemma fetch_parent_data_http_error env (pid : string) (s : state)
    status reason payload :
  http env (requests s) (item_url pid) = Response status reason payload ->
  ~ (200 <= status < 300)%Z ->
  fetch_parent_data env pid s
    = Run (Raises (HTTPError status reason)) (State (fs s) (S (requests s)))
        [Request (item_url pid);
         Stderr ("HTTP Error " +:+ PyStr.str_int status +:+ ": " +:+ reason)].
Proof.
  intros Hhttp Hstatus.
  unfold fetch_parent_data, try_clauses, bind, urlopen. cbv zeta.
  rewrite Hhttp.
  replace ((200 <=? status)%Z && (status <? 300)%Z) with false by lia.
  reflexivity.
Qed.

(** C5: when the item API answers the metadata request with a status
    outside 200..299, [fetch_parent_data] prints [HTTP Error code: reason]
    on standard error and raises the [HTTPError] with that code and reason;
    the process then exits with code 1, and when the pid is not blank and
    the output directory could be made, what it emits is the request, that
    line and the line [Error: HTTP Error code: reason] of [main].  A 404 is
    one such status. *)
Theorem C5_http_error_is_logged_reraised_and_exits_1
    env (pid : string) (s : state) status reason payload :
  http env (requests s) (item_url pid) = Response status reason payload ->
  ~ (200 <= status < 300)%Z ->
  let log := Stderr ("HTTP Error " +:+ PyStr.str_int status +:+ ": " +:+ reason) in
  fetch_parent_data env pid s
    = Run (Raises (HTTPError status reason)) (State (fs s) (S (requests s)))
        [Request (item_url pid); log]
  /\ (forall output, (program env pid output s).1.1 = 1%Z)
  /\ (forall output,
        PyStr.strip pid <> EmptyString ->
        res (mkdir env (path_str env output) s) = Returns tt ->
        (program env pid output s).2
          = [Request (item_url pid); log;
             Stderr ("Error: HTTP Error " +:+ PyStr.str_int status +:+ ": "
                       +:+ reason)]).
Proof.
  intros Hhttp Hstatus. cbv zeta.
  split; [by apply (fetch_parent_data_http_error _ _ _ _ _ payload)|].
  assert (forall output fs',
            mkdir env (path_str env output) s
              = Run (Returns tt) (State fs' (requests s)) [] ->
            PyStr.strip pid <> EmptyString ->
            program env pid output s
              = (1%Z, State fs' (S (requests s)),
                 [Request (item_url pid);
                  Stderr ("HTTP Error " +:+ PyStr.str_int status +:+ ": "
                            +:+ reason)]
                   ++ [Stderr ("Error: " +:+ exn_str (HTTPError status reason))]))
    as Hrun.
  { intros output fs' Hmk Hpid. apply (main_handles _ _ _ _ _ _ _ _ Hpid Hmk).
    unfold bind at 1.
    by rewrite (fetch_parent_data_http_error env pid (State fs' (requests s))
                  status reason payload Hhttp Hstatus). }
  split.
  - intros output.
    destruct (decide (PyStr.strip pid = EmptyString)) as [Hpid|Hne].
    { unfold program, main. by rewrite Hpid. }
    destruct (mkdir_cases env (path_str env output) s)
      as [(e & fs' & Hmk)|[fs' Hmk]].
    + by rewrite (main_without_directory _ _ _ _ _ _ Hne Hmk).
    + by rewrite (Hrun output fs' Hmk Hne).
  - intros output Hne Hres.
    destruct (mkdir_cases env (path_str env output) s)
      as [(e & fs' & Hmk)|[fs' Hmk]].
    + by rewrite Hmk in Hres.
    + by rewrite (Hrun output fs' Hmk Hne).
Qed.

Lemma C5_witness :
  (program (sample_env 404 sample_record true None) "item:1" "out" empty_disk).1.1
    = 1%Z
  /\ (program (sample_env 404 sample_record true None) "item:1" "out" empty_disk).2
     = [Request "https://repository.library.brown.edu/api/items/item:1/";
        Stderr "HTTP Error 404: Not Found";
        Stderr "Error: HTTP Error 404: Not Found"].
Proof.
  destruct (C5_http_error_is_logged_reraised_and_exits_1
              (sample_env 404 sample_record true None) "item:1" empty_disk
              404 "Not Found" (Body [])) as (_ & Hcode & Hevs).
  - reflexivity.
  - lia.
  - split; [apply Hcode|]. apply Hevs; [discriminate | reflexivity].
Defined.

(** ** The download loop *)

(** C1, as the script has it: the calls of [download_image] that the loop
    makes are, in order, those of the pairs of the list, each with the
    destination [output_dir/NNNN.jpg] where [NNNN] is [str(order).zfill(4)];
    the loop never makes more calls than there are pairs, and it makes
    exactly one per pair when no download fails.  For an order from 0 to
    9999 the name is the order written with four decimal digits; orders 1
    and 23 give [0001.jpg] and [0023.jpg]. *)
Theorem C1_one_call_per_pair_when_no_download_fails
    env (child_pids : list (pyval * pyval)) (output_dir : string) (s : state) :
  let r := download_images_for_children env child_pids output_dir s in
  calls (emitted r) `prefix_of` (call_for env output_dir <$> child_pids)
  /\ (res r = Returns tt ->
      calls (emitted r) = call_for env output_dir <$> child_pids
      /\ length (calls (emitted r)) = length child_pids)
  /\ (forall pid order,
        call_for env output_dir (pid, order)
          = (image_url_of env pid,
             output_dir +:+ "/" +:+ PyStr.zfill 4 (py_str env order) +:+ ".jpg"))
  /\ (forall n, (0 <= n < 10000)%Z ->
        output_path_of env output_dir (PInt n)
          = output_dir +:+ "/" +:+ four_digits n +:+ ".jpg")
  /\ output_path_of env output_dir (PInt 1) = output_dir +:+ "/" +:+ "0001.jpg"
  /\ output_path_of env output_dir (PInt 23) = output_dir +:+ "/" +:+ "0023.jpg".
Proof.
  cbv zeta. unfold download_images_for_children, bind, emit.
  cbn [res final emitted app calls].
  destruct (for_children_calls env output_dir child_pids s) as [Hp Heq].
  split; [done|]. split.
  { set (r := for_children env output_dir child_pids s) in *.
    destruct (res r) as [[]|e|code]; cbn [res emitted]; try done.
    intros _. rewrite Heq by done. by rewrite length_fmap. }
  split; [done|]. split; [|done].
  intros n Hn. unfold output_path_of, page_name. cbn [py_str].
  by rewrite zfill_four_digits.
Qed.

Lemma C1_witness :
  calls (emitted (download_images_for_children
                    (sample_env 200 sample_record true None) two_pages "out"
                    (disk_with "out/0001.jpg")))
    = [("https://repository.library.brown.edu/iiif/image/a:1/full/!800,800/0/default.jpg",
        "out/0001.jpg");
       ("https://repository.library.brown.edu/iiif/image/a:3/full/!800,800/0/default.jpg",
        "out/0023.jpg")]
  /\ output_path_of (sample_env 200 sample_record true None) "out" (PInt 7)
     = "out/0007.jpg".
Proof.
  pose proof (C1_one_call_per_pair_when_no_download_fails
                (sample_env 200 sample_record true None) two_pages "out"
                (disk_with "out/0001.jpg")) as (_ & Hall & _ & Hname & _).
  split.
  - apply Hall. reflexivity.
  - apply (Hname 7%Z). lia.
Defined.

(** Without the proviso the count is wrong: when the first of two
    downloads fails, only the first pair is tried. *)
Lemma C1_counterexample :
  ~ (forall env (child_pids : list (pyval * pyval)) output_dir s,
       child_pids <> [] ->
       Forall passes_filter child_pids ->
       length (calls (emitted
                 (download_images_for_children env child_pids output_dir s)))
         = length child_pids).
Proof.
  intros H.
  specialize (H (sample_env 200 sample_record false None) two_pages "out"
                (disk_with "out/0000.jpg") ltac:(done)
                ltac:(by repeat constructor)).
  vm_compute in H. discriminate H.
Qed.

(** When the loop has gone through the pairs before position [i] and
    the download of the pair at position [i] fails with [e]. *)
Lemma first_failure_ends_the_loop
    env (output_dir : string) before pid page after
    (s s1 s2 : state) (evs1 evs2 : list event) (e : exn) :
  for_children env output_dir before s = Run (Returns tt) s1 evs1 ->
  download_image env (image_url_of env pid)
    (output_path_of env output_dir page) s1 = Run (Raises e) s2 evs2 ->
  let child_pids := before ++ (pid, page) :: after in
  let log := Stderr ("Error processing PID " +:+ py_str env pid +:+ ": "
                       +:+ exn_str e) in
  download_images_for_children env child_pids output_dir s
    = Run (Raises e) s2
          (Progress (length child_pids) :: evs1 ++ evs2 ++ [log])
  /\ calls (Progress (length child_pids) :: evs1 ++ evs2 ++ [log])
     = call_for env output_dir <$> (before ++ [(pid, page)]).
Proof.
  intros Hbefore Hfail. cbv zeta.
  assert (for_children env output_dir (before ++ (pid, page) :: after) s
          = Run (Raises e) s2
              (evs1 ++ evs2 ++
                 [Stderr ("Error processing PID " +:+ py_str env pid +:+ ": "
                            +:+ exn_str e)])) as Hloop.
  { rewrite for_children_app. unfold bind at 1. rewrite Hbefore.
    cbn [res final emitted for_children]. unfold bind.
    rewrite process_child_run. cbv zeta. rewrite Hfail. done. }
  split.
  - unfold download_images_for_children, bind, emit. cbn [res final emitted].
    by rewrite Hloop.
  - pose proof (for_children_calls env output_dir before s) as [_ Hcalls].
    rewrite Hbefore in Hcalls. cbn [res emitted] in Hcalls.
    pose proof (download_image_calls env (image_url_of env pid)
                  (output_path_of env output_dir page) s1) as Hcall.
    rewrite Hfail in Hcall. cbn [emitted] in Hcall.
    cbn [calls]. rewrite !calls_app, Hcalls, Hcall by done.
    by rewrite fmap_app, app_nil_r.
Qed.

(** C4: when the loop has gone through the pairs before position [i]
    and the download of the pair at position [i] fails with [e], the
    loop prints [Error processing PID pid: e] on standard error, with the
    pid of that pair, and ends with [e]; the calls of [download_image] it
    has made are those for the positions up to [i], and none for a later
    pair.  This is the only way in which the loop ends with an exception. *)
Theorem C4_first_failure_is_logged_and_ends_the_loop
    env (output_dir : string) :
  (forall before pid page after (s s1 s2 : state) evs1 evs2 e,
     for_children env output_dir before s = Run (Returns tt) s1 evs1 ->
     download_image env (image_url_of env pid)
       (output_path_of env output_dir page) s1 = Run (Raises e) s2 evs2 ->
     let child_pids := before ++ (pid, page) :: after in
     let log := Stderr ("Error processing PID " +:+ py_str env pid +:+ ": "
                          +:+ exn_str e) in
     download_images_for_children env child_pids output_dir s
       = Run (Raises e) s2
             (Progress (length child_pids) :: evs1 ++ evs2 ++ [log])
     /\ calls (Progress (length child_pids) :: evs1 ++ evs2 ++ [log])
        = call_for env output_dir <$> (before ++ [(pid, page)]))
  /\ (forall child_pids (s : state) e,
        let r := download_images_for_children env child_pids output_dir s in
        res r = Raises e ->
        exists before pid page after evs,
          child_pids = before ++ (pid, page) :: after
          /\ emitted r
             = Progress (length child_pids) :: evs ++
                 [Stderr ("Error processing PID " +:+ py_str env pid +:+ ": "
                            +:+ exn_str e)]
          /\ calls (emitted r)
             = call_for env output_dir <$> (before ++ [(pid, page)])).
Proof.
  split; [intros *; apply first_failure_ends_the_loop|].
  intros child_pids s e. cbv zeta.
  unfold download_images_for_children, bind, emit.
  cbn [res final emitted app calls].
  set (r := for_children env output_dir child_pids s).
  destruct (res r) as [[]|e'|code] eqn:Hr; cbn [res]; try done.
  intros [= ->].
  destruct (for_children_raises env output_dir child_pids s e Hr)
    as (before & pid & page & after & evs & Hlist & Hevs & Hcalls).
  exists before, pid, page, after, evs. fold r in Hevs, Hcalls.
  cbn [emitted calls]. by rewrite Hevs at 1.
Qed.

Lemma C4_witness :
  download_images_for_children (sample_env 200 sample_record false None)
    ([(PStr "a:0", PInt 0)] ++ (PStr "a:1", PInt 1) :: [(PStr "a:3", PInt 23)])
    "out" (disk_with "out/0000.jpg")
  = Run (Raises (URLError "unreachable"))
        (State {[ "out/0000.jpg" := File jpeg ]} 2)
        (Progress 3 ::
         [Call "https://repository.library.brown.edu/iiif/image/a:0/full/!800,800/0/default.jpg"
            "out/0000.jpg";
          Stdout "Image already exists at out/0000.jpg, skipping download."]
         ++ [Call "https://repository.library.brown.edu/iiif/image/a:1/full/!800,800/0/default.jpg"
               "out/0001.jpg";
             Request "https://repository.library.brown.edu/iiif/image/a:1/full/!800,800/0/default.jpg";
             Stderr "Failed to download image from https://repository.library.brown.edu/iiif/image/a:1/full/!800,800/0/default.jpg: <urlopen error unreachable>"]
         ++ [Stderr "Error processing PID a:1: <urlopen error unreachable>"]).
Proof.
  apply (proj1 (C4_first_failure_is_logged_and_ends_the_loop
                  (sample_env 200 sample_record false None) "out")
           [(PStr "a:0", PInt 0)] (PStr "a:1") (PInt 1) [(PStr "a:3", PInt 23)]
           (disk_with "out/0000.jpg") (disk_with "out/0000.jpg")).
  - reflexivity.
  - reflexivity.
Defined.

(** ** Skipping what is already there *)

(** C3: [download_image] on a destination that exists returns normally,
    leaves the state (so the file) as it was, and emits the skip notice
    and no request.  Hence in any run of the program, whatever the state
    it starts from (that left by an earlier run, for one), every call for
    a destination that existed at the start is followed at once by the skip
    notice, and so by no request; and a loop over pages whose destinations
    all exist makes no request at all. *)
Theorem C3_existing_destination_is_a_no_op :
  (forall env image_url output_path s,
     is_Some (fs s !! output_path) ->
     download_image env image_url output_path s
       = Run (Returns tt) s
           [Call image_url output_path; Stdout (skip_notice output_path)])
  /\ (forall env pid output s,
        skips_existing (fs s) (program env pid output s).2)
  /\ (forall env child_pids output_dir s,
        Forall (fun child =>
                  is_Some (fs s !! output_path_of env output_dir child.2))
          child_pids ->
        let r := download_images_for_children env child_pids output_dir s in
        res r = Returns tt /\ final r = s /\ requested (emitted r) = []).
Proof.
  split; [apply download_image_exists|].
  split; [apply program_skips_existing|].
  intros env child_pids output_dir s Hall. cbv zeta.
  unfold download_images_for_children, bind, emit. cbn [res final emitted].
  destruct (for_children_all_present env output_dir child_pids s Hall)
    as (Hr & Hs & Hq).
  rewrite Hr. cbn [res final emitted app requested]. by rewrite Hs, Hq.
Qed.

Lemma C3_witness :
  download_image (sample_env 200 sample_record true None)
    "https://repository.library.brown.edu/iiif/image/a:1/full/!800,800/0/default.jpg"
    "out/0001.jpg" (disk_with "out/0001.jpg")
  = Run (Returns tt) (disk_with "out/0001.jpg")
      [Call "https://repository.library.brown.edu/iiif/image/a:1/full/!800,800/0/default.jpg"
         "out/0001.jpg";
       Stdout "Image already exists at out/0001.jpg, skipping download."]
  /\ requested (emitted (download_images_for_children
                           (sample_env 200 sample_record true None)
                           [(PStr "a:1", PInt 1)] "out"
                           (disk_with "out/0001.jpg"))) = [].
Proof.
  destruct C3_existing_destination_is_a_no_op as (Hskip & _ & Hnone).
  split.
  - apply Hskip. by eexists.
  - apply Hnone. repeat constructor. by eexists.
Defined.

(** Two runs in a row: the first downloads both pages, the second asks
    the network for the record of the item only. *)
Example second_run_requests_no_image :
  let env := sample_env 200 sample_record true None in
  let '(code1, s1, evs1) := program env "item:1" "out" empty_disk in
  let '(code2, s2, evs2) :=
    program (sample_env 200 sample_record false None) "item:1" "out"
      (State (fs s1) 0) in
  code1 = 0%Z /\ length (requested evs1) = 3 /\
  code2 = 0%Z /\ requested evs2 = [item_url "item:1"].
Proof. vm_compute. done. Qed.

(** ** Standard output and standard error *)

(** C9, as the script has it: the lines that the script prints on
    standard output are the [Found N child PIDs.] notice and the
    [Image already exists at ..., skipping download.] notices, nothing else;
    the exit code is 0 or 1, and a run that exits with 1 ends by reporting
    on standard error.  (What [tqdm] draws is not a line printed by the
    script.) *)
Theorem C9_stdout_carries_the_two_notices env (pid output : string) (s : state) :
  let '(code, s', evs) := program env pid output s in
  (forall line, line ∈ stdout_lines evs -> is_notice line)
  /\ (code = 0%Z \/
      code = 1%Z /\ exists before ev, evs = before ++ [ev] /\ on_stderr ev).
Proof.
  pose proof (program_stdout env pid output s) as H.
  destruct (program env pid output s) as [[code s'] evs].
  destruct H as [Hout Hcode]. split; [|done].
  intros line. by apply stdout_lines_ok.
Qed.

(** The [Found] notice is not the only line on standard output: the
    skip notice is printed there too. *)
Lemma C9_counterexample :
  ~ (forall env pid output s line,
       line ∈ stdout_lines (program env pid output s).2 ->
       exists n, line = found_notice n).
Proof.
  intros H.
  destruct (H (sample_env 200 sample_record true None) "item:1" "out"
              (State {[ "out/0001.jpg" := File jpeg ]} 0)
              (skip_notice "out/0001.jpg")) as [n Hn].
  - vm_compute. set_solver.
  - vm_compute in Hn. discriminate Hn.
Qed.

(** ** Records without usable children *)

Lemma missing_or_empty_falsy (m : gmap string pyval) (key : string) :
  missing_or_empty m key -> truthy (default PNone (m !! key)) = false.
Proof. by intros [->|(v & -> & Hv)]. Qed.

Lemma truthy_dict (r : gmap string pyval) :
  r <> ∅ -> truthy (PDict r) = true.
Proof. intros Hr. simpl. by rewrite bool_decide_eq_false_2. Qed.

Lemma lookup_nonempty (r : gmap string pyval) (key : string) v :
  r !! key = Some v -> r <> ∅.
Proof. intros Hk ->. by rewrite lookup_empty in Hk. Qed.

Lemma child_entry_lacking (child : pyval) :
  lacks_pid_or_order child -> child_entry child = Ok None.
Proof.
  intros (d & -> & H). rewrite child_entry_dict. cbv zeta.
  destruct H as [H|[H|H]].
  - by rewrite (missing_or_empty_falsy _ _ H).
  - rewrite H. by destruct (truthy _).
  - rewrite H. by destruct (truthy _).
Qed.

Lemma comprehension_lacking (children : list pyval) :
  Forall lacks_pid_or_order children -> comprehension children = Ok [].
Proof.
  induction 1 as [|child rest Hc _ IH]; [done|].
  cbn [comprehension]. by rewrite (child_entry_lacking _ Hc), IH.
Qed.

Lemma get_child_pids_invalid (data : pyval) (f : failure) (s : state) :
  invalid_record data f ->
  get_child_pids data s = Run (Raises (ValueError (failure_message f))) s [].
Proof.
  intros [m Hrel|m r Hrel Hr Hpart|m r child children Hrel Hpart Hall];
    unfold get_child_pids, bind; cbn [py_get lift ret res final emitted].
  - by rewrite (missing_or_empty_falsy _ _ Hrel).
  - rewrite Hrel. cbn [default from_option id]. rewrite (truthy_dict _ Hr).
    cbn [negb py_get lift ret res final].
    by rewrite (missing_or_empty_falsy _ _ Hpart).
  - rewrite Hrel. cbn [default from_option id].
    rewrite (truthy_dict _ (lookup_nonempty _ _ _ Hpart)).
    cbn [negb py_get lift ret res final]. rewrite Hpart.
    cbn [default from_option id truthy negb py_iter lift ret res final emitted].
    by rewrite (comprehension_lacking _ Hall).
Qed.

(** Outside the data model the failure is not one of the three: a child
    that is not an object, or a [relations] that is not one, makes [.get]
    fail with an [AttributeError]. *)
Example child_that_is_a_number (s : state) :
  get_child_pids (item_with [PInt 5]) s
    = Run (Raises (AttributeError "'int' object has no attribute 'get'")) s [].
Proof. reflexivity. Qed.

Example relations_that_is_a_list (s : state) :
  get_child_pids (PDict {[ "relations" := PList [PInt 1] ]}) s
    = Run (Raises (AttributeError "'list' object has no attribute 'get'")) s [].
Proof. reflexivity. Qed.

Lemma failure_message_inj (f g : failure) :
  failure_message f = failure_message g -> f = g.
Proof. by destruct f, g. Qed.

(** C2: on a record whose [relations] is missing or empty, whose
    [hasPart] is missing or empty, or whose children all lack a pid or a
    non-null order, [get_child_pids] raises a [ValueError] with the message
    of that case (the three messages differ), prints nothing and leaves the
    state as it was.  A run of the program that receives such a record
    exits with code 1 without a single call of [download_image]: it makes
    the one request for the record and, when the output directory could be
    made, prints [Error: ] and the message on standard error. *)
Theorem C2_invalid_record_fails_before_any_download
    (data : pyval) (f : failure) :
  invalid_record data f ->
  (forall s,
     get_child_pids data s = Run (Raises (ValueError (failure_message f))) s [])
  /\ (forall g, failure_message g = failure_message f -> g = f)
  /\ (forall env pid output s status reason raw,
        PyStr.strip pid <> EmptyString ->
        http env (requests s) (item_url pid) = Response status reason (Body raw) ->
        (200 <= status < 300)%Z ->
        json_loads env raw = Ok data ->
        let '(code, s', evs) := program env pid output s in
        code = 1%Z
        /\ calls evs = []
        /\ (forall url, url ∈ requested evs -> url = item_url pid)
        /\ (res (mkdir env (path_str env output) s) = Returns tt ->
            evs = [Request (item_url pid);
                   Stderr ("Error: " +:+ failure_message f)])).
Proof.
  intros Hinv. split; [intros s; by apply get_child_pids_invalid|].
  split; [intros g; apply failure_message_inj|].
  intros env pid output s status reason raw Hpid Hhttp Hstatus Hjson.
  destruct (mkdir_cases env (path_str env output) s)
    as [(e & fs' & Hmk)|[fs' Hmk]].
  - rewrite (main_without_directory _ _ _ _ _ _ Hpid Hmk).
    split; [done|]. split; [done|]. split; [by intros url ?%elem_of_nil|].
    by rewrite Hmk.
  - rewrite (main_handles env pid output s _
               (State fs' (S (requests s))) [Request (item_url pid)]
               (ValueError (failure_message f)) Hpid Hmk).
    + cbn [app calls requested]. split; [done|]. split; [done|].
      split; [intros url Hin; by apply list_elem_of_singleton in Hin|]. done.
    + unfold bind.
      rewrite (fetch_parent_data_ok env pid (State fs' (requests s))
                 status reason raw data Hhttp Hstatus Hjson).
      cbn [res final emitted].
      by rewrite (get_child_pids_invalid _ _ _ Hinv).
Qed.

Lemma C2_witness :
  get_child_pids (item_with [child_descriptor (PStr "a:2") PNone]) empty_disk
    = Run (Raises (ValueError "No valid child PIDs found.")) empty_disk []
  /\ program (sample_env 200 (item_with [child_descriptor (PStr "a:2") PNone])
                true None) "item:1" "out" empty_disk
     = (1%Z, State {[ "out" := Dir ]} 1,
        [Request "https://repository.library.brown.edu/api/items/item:1/";
         Stderr "Error: No valid child PIDs found."]).
Proof.
  destruct (C2_invalid_record_fails_before_any_download
              (item_with [child_descriptor (PStr "a:2") PNone]) NoValidChildren)
    as (Hget & _ & Hrun).
  - eapply invalid_no_valid_children; [reflexivity | reflexivity |].
    repeat constructor. eexists. split; [reflexivity|]. right. right. reflexivity.
  - split; [apply Hget|].
    specialize (Hrun (sample_env 200 (item_with [child_descriptor (PStr "a:2") PNone])
                        true None) "item:1" "out" empty_disk 200%Z "Not Found" []
                  ltac:(discriminate) eq_refl ltac:(lia) eq_refl).
    destruct (program _ _ _ _) as [[code s'] evs] eqn:Hp.
    destruct Hrun as (-> & _ & _ & Hevs). rewrite Hevs by reflexivity.
    vm_compute in Hp. by inversion Hp.
Defined.

(** ** A download that fails half-way *)

(** C8: when the destination did not exist, the request succeeded and
    the file was opened, and then reading the body or writing it fails
    with [e], [download_image] prints [Failed to download image from url: e]
    on standard error and raises [e]; the destination stays, with the
    bytes written so far (none when the read failed), and any later call
    of [download_image] for that path finds it and skips the download. *)
Theorem C8_failed_download_leaves_the_partial_file
    env (image_url output_path : string) (s : state)
    status reason payload (e : exn) (written : list Byte.byte) :
  fs s !! output_path = None ->
  http env (requests s) image_url = Response status reason payload ->
  (200 <= status < 300)%Z ->
  open_fault env output_path = None ->
  fails_after_open env output_path payload e written ->
  let r := download_image env image_url output_path s in
  res r = Raises e
  /\ emitted r
     = [Call image_url output_path; Request image_url;
        Stderr ("Failed to download image from " +:+ image_url +:+ ": "
                  +:+ exn_str e)]
  /\ fs (final r) = <[output_path := File written]> (fs s)
  /\ (forall env' image_url' s',
        fs s' !! output_path = fs (final r) !! output_path ->
        download_image env' image_url' output_path s'
          = Run (Returns tt) s'
              [Call image_url' output_path; Stdout (skip_notice output_path)]).
Proof.
  intros Hnew Hhttp Hstatus Hopen Hfail. cbv zeta.
  assert (download_image env image_url output_path s
          = Run (Raises e)
              (State (<[output_path := File written]> (fs s)) (S (requests s)))
              [Call image_url output_path; Request image_url;
               Stderr ("Failed to download image from " +:+ image_url +:+ ": "
                         +:+ exn_str e)]) as Hrun.
  { rewrite download_image_absent by done. cbv zeta.
    unfold try_except, bind, urlopen, open_wb. rewrite Hhttp.
    replace ((200 <=? status)%Z && (status <? 300)%Z) with true by lia.
    cbn [res final emitted fs requests]. rewrite Hopen.
    cbn [res final emitted fs requests].
    destruct Hfail as [e|data k e Hwrite];
      cbn [read ret raise res final emitted].
    - reflexivity.
    - unfold write. cbn [fs requests]. rewrite Hwrite.
      cbn [res final emitted]. by rewrite insert_insert_eq. }
  rewrite Hrun. cbn [res final emitted fs].
  split; [done|]. split; [done|]. split; [done|].
  intros env' image_url' s' Hs'. apply download_image_exists.
  rewrite Hs', lookup_insert_eq. by eexists.
Qed.

Lemma C8_witness :
  let env := sample_env 200 sample_record true (Some 2) in
  let r := download_image env
             "https://repository.library.brown.edu/iiif/image/a:1/full/!800,800/0/default.jpg"
             "out/0001.jpg" (State ∅ 1) in
  res r = Raises (OtherError "OSError" "[Errno 28] No space left on device")
  /\ fs (final r) = <["out/0001.jpg" := File [Byte.xff; Byte.xd8]]> ∅
  /\ download_image (sample_env 200 sample_record true None)
       "https://repository.library.brown.edu/iiif/image/a:1/full/!800,800/0/default.jpg"
       "out/0001.jpg" (final r)
     = Run (Returns tt) (final r)
         [Call "https://repository.library.brown.edu/iiif/image/a:1/full/!800,800/0/default.jpg"
            "out/0001.jpg";
          Stdout "Image already exists at out/0001.jpg, skipping download."].
Proof.
  cbv zeta.
  destruct (C8_failed_download_leaves_the_partial_file
              (sample_env 200 sample_record true (Some 2))
              "https://repository.library.brown.edu/iiif/image/a:1/full/!800,800/0/default.jpg"
              "out/0001.jpg" (State ∅ 1) 200%Z "OK" (Body jpeg)
              (OtherError "OSError" "[Errno 28] No space left on device")
              (take 2 jpeg))
    as (Hres & _ & Hfs & Hnext).
  - reflexivity.
  - reflexivity.
  - lia.
  - reflexivity.
  - by apply broken_write.
  - split; [exact Hres|]. split; [exact Hfs|]. by apply Hnext.
Defined.

(** * More properties of the script *)

(** ** Page names and page numbers *)

Lemma uint_of_zeros (k : nat) (s : string) :
  NilEmpty.uint_of_string (PyStr.zeros k +:+ s)
    = option_map (Nat.iter k Decimal.D0) (NilEmpty.uint_of_string s).
Proof.
  induction k as [|k IH].
  - change (PyStr.zeros 0 +:+ s) with s.
    destruct (NilEmpty.uint_of_string s); reflexivity.
  - change (PyStr.zeros (S k) +:+ s) with (String "0" (PyStr.zeros k +:+ s)).
    cbn [NilEmpty.uint_of_string]. rewrite IH.
    destruct (NilEmpty.uint_of_string s); reflexivity.
Qed.

Lemma of_uint_zeros (k : nat) (d : Decimal.uint) :
  Z.of_uint (Nat.iter k Decimal.D0 d) = Z.of_uint d.
Proof. induction k as [|k IH]; [done|]. exact IH. Qed.

Lemma string_of_uint_head (d : Decimal.uint) :
  d <> Decimal.Nil ->
  exists c rest, NilEmpty.string_of_uint d = String c rest
                 /\ PyStr.is_sign c = false.
Proof. destruct d; [done|..]; intros _; by eexists _, _. Qed.

Lemma page_number_unsigned (k : nat) (d : Decimal.uint) :
  d <> Decimal.Nil ->
  page_number (PyStr.zeros k +:+ NilEmpty.string_of_uint d) = Some (Z.of_uint d).
Proof.
  intros Hd. unfold page_number.
  assert (NilEmpty.int_of_string (PyStr.zeros k +:+ NilEmpty.string_of_uint d)
          = option_map Decimal.Pos
              (NilEmpty.uint_of_string
                 (PyStr.zeros k +:+ NilEmpty.string_of_uint d))) as ->.
  { destruct k as [|k]; [|done]. by destruct d. }
  rewrite uint_of_zeros, NilEmpty.usu. simpl. by rewrite of_uint_zeros.
Qed.

Lemma page_number_signed (k : nat) (d : Decimal.uint) :
  page_number (String "-" (PyStr.zeros k +:+ NilEmpty.string_of_uint d))
    = Some (- Z.of_uint d)%Z.
Proof.
  unfold page_number. cbn [NilEmpty.int_of_string Ascii.eqb Bool.eqb].
  rewrite uint_of_zeros, NilEmpty.usu. simpl. by rewrite of_uint_zeros.
Qed.

Lemma zfill_unsigned (w : nat) (d : Decimal.uint) :
  d <> Decimal.Nil ->
  exists k, PyStr.zfill w (NilEmpty.string_of_uint d)
            = PyStr.zeros k +:+ NilEmpty.string_of_uint d.
Proof.
  intros Hd. unfold PyStr.zfill.
  destruct (w <=? _)%nat; [by exists 0%nat|].
  destruct (string_of_uint_head d Hd) as (c & rest & -> & Hc).
  rewrite Hc. by eexists.
Qed.

Lemma zfill_signed (w : nat) (s : string) :
  exists k, PyStr.zfill w (String "-" s) = String "-" (PyStr.zeros k +:+ s).
Proof.
  unfold PyStr.zfill. destruct (w <=? _)%nat; [by exists 0%nat|]. by eexists.
Qed.

Lemma nilzero_string_of_uint (d : Decimal.uint) :
  d <> Decimal.Nil -> NilZero.string_of_uint d = NilEmpty.string_of_uint d.
Proof. by destruct d. Qed.

(** X1: [str(n).zfill(w)] still denotes [n], for every integer [n] and every
    width [w]: the zeros go in front of the digits and behind the sign, and
    no digit is dropped.  So the page name of an integer order determines
    the order: two different integer orders never share a file name. *)
Theorem page_number_of_zfill (w : nat) (n : Z) :
  page_number (PyStr.zfill w (PyStr.str_int n)) = Some n
  /\ (forall env m, page_name env (PInt m) = page_name env (PInt n) -> m = n).
Proof.
  assert (forall w n, page_number (PyStr.zfill w (PyStr.str_int n)) = Some n)
    as Hround.
  { clear. intros w n. unfold PyStr.str_int. destruct n as [|p|p]; simpl Z.to_int.
    - destruct (zfill_unsigned w (Decimal.D0 Decimal.Nil)) as [k Hk]; [done|].
      change (NilZero.string_of_int (Decimal.Pos (Decimal.D0 Decimal.Nil)))
        with (NilEmpty.string_of_uint (Decimal.D0 Decimal.Nil)).
      rewrite Hk. by rewrite page_number_unsigned.
    - pose proof (Unsigned.to_uint_nonnil p) as Hp.
      cbn [NilZero.string_of_int]. rewrite nilzero_string_of_uint by done.
      destruct (zfill_unsigned w (Pos.to_uint p) Hp) as [k ->].
      rewrite page_number_unsigned by done.
      unfold Z.of_uint. by rewrite Unsigned.of_to.
    - pose proof (Unsigned.to_uint_nonnil p) as Hp.
      cbn [NilZero.string_of_int]. rewrite nilzero_string_of_uint by done.
      destruct (zfill_signed w (NilEmpty.string_of_uint (Pos.to_uint p)))
        as [k ->].
      rewrite page_number_signed. unfold Z.of_uint. by rewrite Unsigned.of_to. }
  split; [apply Hround|].
  intros env m Heq. unfold page_name in Heq. cbn [py_str] in Heq.
  pose proof (Hround 4%nat m) as Hm. rewrite Heq, Hround in Hm. congruence.
Qed.

Lemma page_number_of_zfill_witness :
  page_number (PyStr.zfill 4 (PyStr.str_int 23)) = Some 23%Z
  /\ (20 + 3)%Z = 23%Z.
Proof.
  destruct (page_number_of_zfill 4 23) as [Hround Hinj].
  split; [exact Hround|].
  apply (Hinj (sample_env 200 sample_record true None) (20 + 3)%Z).
  reflexivity.
Defined.

(** ** The guard on the pid *)

Lemma rstrip_empty (s : string) :
  PyStr.rstrip s = EmptyString ->
  forallb PyStr.isspace (list_ascii_of_string s) = true.
Proof.
  induction s as [|c s IH]; [done|]. cbn [PyStr.rstrip list_ascii_of_string forallb].
  destruct (PyStr.rstrip s); [|done].
  destruct (PyStr.isspace c); [|done]. intros _. by apply IH.
Qed.

Lemma lstrip_spaces (s : string) :
  forallb PyStr.isspace (list_ascii_of_string (PyStr.lstrip s)) = true ->
  forallb PyStr.isspace (list_ascii_of_string s) = true.
Proof.
  induction s as [|c s IH]; [done|]. cbn [PyStr.lstrip].
  destruct (PyStr.isspace c) eqn:Hc; [|done].
  intros H. cbn [list_ascii_of_string forallb]. rewrite Hc. by apply IH.
Qed.

Lemma strip_empty_iff (s : string) :
  PyStr.strip s = EmptyString <->
  forallb PyStr.isspace (list_ascii_of_string s) = true.
Proof.
  split; [|apply strip_blank].
  intros H. by apply lstrip_spaces, rstrip_empty.
Qed.

(** ** [fetch_parent_data], in every case *)

Lemma fetch_parent_data_shape env (pid : string) (s : state) :
  let r := fetch_parent_data env pid s in
  final r = State (fs s) (S (requests s))
  /\ (forall code, res r <> Exits code)
  /\ ((exists data, res r = Returns data
                    /\ emitted r = [Request (item_url pid)])
      \/ (exists e, res r = Raises e
                    /\ emitted r = Request (item_url pid) :: fetch_log e
                    /\ fetch_fails env (requests s) (item_url pid) e)).
Proof.
  cbv zeta. unfold fetch_parent_data, try_clauses, bind, urlopen. cbv zeta.
  destruct (http env (requests s) (item_url pid))
    as [status reason payload|e] eqn:Hhttp.
  - destruct ((200 <=? status)%Z && (status <? 300)%Z) eqn:Hst.
    + assert (200 <= status < 300)%Z as Hrange by lia.
      destruct payload as [raw|e]; cbn [read ret raise res final emitted].
      * destruct (json_loads env raw) as [data|e] eqn:Hjson;
          cbn [lift ret raise res final emitted].
        { split; [done|]. split; [done|]. left. by exists data. }
        assert (fetch_fails env (requests s) (item_url pid) e) as Hf
          by by eapply fetch_bad_json.
        destruct e; cbn; (split; [done|]); (split; [done|]); right;
          eexists; by repeat split.
      * assert (fetch_fails env (requests s) (item_url pid) e) as Hf
          by by eapply fetch_broken_body.
        destruct e; cbn; (split; [done|]); (split; [done|]); right;
          eexists; by repeat split.
    + assert (fetch_fails env (requests s) (item_url pid)
                (HTTPError status reason)) as Hf
        by (eapply fetch_bad_status; [done | lia]).
      cbn. split; [done|]. split; [done|]. right. eexists. by repeat split.
  - assert (fetch_fails env (requests s) (item_url pid) e) as Hf
      by by apply fetch_no_response.
    destruct e; cbn; (split; [done|]); (split; [done|]); right;
      eexists; by repeat split.
Qed.

(** X3: whatever the network answers, [fetch_parent_data] calls [urlopen]
    exactly once, for the URL of the item, leaves every file as it is,
    prints nothing on standard output and at most one line on standard
    error, and none when it returns. *)
Theorem fetch_parent_data_one_request env (pid : string) (s : state) :
  let r := fetch_parent_data env pid s in
  requested (emitted r) = [item_url pid]
  /\ fs (final r) = fs s
  /\ requests (final r) = S (requests s)
  /\ stdout_lines (emitted r) = []
  /\ calls (emitted r) = []
  /\ (forall code, res r <> Exits code)
  /\ (forall data, res r = Returns data -> emitted r = [Request (item_url pid)])
  /\ (length (emitted r) <= 2)%nat.
Proof.
  cbv zeta.
  destruct (fetch_parent_data_shape env pid s) as (Hfinal & Hexit & Hcases).
  rewrite Hfinal. cbn [fs requests].
  destruct Hcases as [(data & Hres & Hev)|(e & Hres & Hev & _)]; rewrite Hev, Hres.
  - repeat split; try done. cbn. lia.
  - destruct e; cbn; repeat split; try done; lia.
Qed.

Lemma fetch_fails_run env (pid : string) (s : state) (e : exn) :
  fetch_fails env (requests s) (item_url pid) e ->
  fetch_parent_data env pid s
    = Run (Raises e) (State (fs s) (S (requests s)))
        (Request (item_url pid) :: fetch_log e).
Proof.
  intros Hfail.
  unfold fetch_parent_data, try_clauses, bind, urlopen. cbv zeta.
  destruct Hfail as [e Hh|status reason payload Hh Hst|status reason e Hh Hst
                    |status reason raw e Hh Hst Hjson]; rewrite Hh.
  - by destruct e.
  - replace ((200 <=? status)%Z && (status <? 300)%Z) with false by lia. done.
  - replace ((200 <=? status)%Z && (status <? 300)%Z) with true by lia.
    by destruct e.
  - replace ((200 <=? status)%Z && (status <? 300)%Z) with true by lia.
    cbn [read ret res final emitted]. rewrite Hjson. by destruct e.
Qed.

(** X4: when fetching the record fails, the exception that reaches the
    caller is the one that was raised, unchanged.  An [HTTPError], a
    [URLError] and a [JSONDecodeError] are each logged with their own line
    on standard error; an exception of any other class (a read that breaks,
    a body that is not UTF-8) passes through [fetch_parent_data] without a
    line. *)
Theorem fetch_parent_data_reraises env (pid : string) (s : state) (e : exn) :
  fetch_fails env (requests s) (item_url pid) e ->
  fetch_parent_data env pid s
    = Run (Raises e) (State (fs s) (S (requests s)))
        (Request (item_url pid) :: fetch_log e).
Proof. apply fetch_fails_run. Qed.

Lemma fetch_parent_data_reraises_witness :
  fetch_parent_data
    (sample_env 200 sample_record false None) "item:1" (State ∅ 1)
  = Run (Raises (URLError "unreachable")) (State ∅ 2)
      [Request "https://repository.library.brown.edu/api/items/item:1/";
       Stderr "URL Error: unreachable"].
Proof.
  apply (fetch_parent_data_reraises
           (sample_env 200 sample_record false None) "item:1" (State ∅ 1)
           (URLError "unreachable")).
  apply fetch_no_response. reflexivity.
Defined.

Lemma fetch_parent_data_one_request_witness :
  emitted (fetch_parent_data (sample_env 200 sample_record true None) "item:1"
             empty_disk)
  = [Request "https://repository.library.brown.edu/api/items/item:1/"].
Proof.
  destruct (fetch_parent_data_one_request
              (sample_env 200 sample_record true None) "item:1" empty_disk)
    as (_ & _ & _ & _ & _ & _ & Hret & _).
  apply (Hret sample_record). reflexivity.
Defined.

(** ** What [get_child_pids] returns *)

Lemma child_entry_pair_of (d : gmap string pyval) :
  child_entry (PDict d) = Ok (pair_of (PDict d)).
Proof.
  rewrite child_entry_dict. cbv zeta. unfold pair_of.
  destruct (d !! "pid") as [pid|]; [|done].
  destruct (d !! "order") as [order|]; cbn [default from_option id];
    [done|]. by destruct (truthy pid).
Qed.

Lemma comprehension_objects (children : list pyval) :
  Forall is_dict children ->
  comprehension children = Ok (omap pair_of children).
Proof.
  induction 1 as [|child rest [d ->] _ IH]; [done|].
  cbn [comprehension omap list_omap]. rewrite child_entry_pair_of, IH.
  by destruct (pair_of (PDict d)).
Qed.

Lemma child_entry_not_object (child : pyval) :
  ~ is_dict child ->
  child_entry child
    = Raise (AttributeError
               ("'" +:+ type_name child +:+ "' object has no attribute 'get'")).
Proof. intros H. destruct child; try done. destruct H. by eexists. Qed.

Lemma comprehension_not_object (before after : list pyval) (child : pyval) :
  Forall is_dict before -> ~ is_dict child ->
  comprehension (before ++ child :: after)
    = Raise (AttributeError
               ("'" +:+ type_name child +:+ "' object has no attribute 'get'")).
Proof.
  intros Hb Hc. induction Hb as [|c before [d ->] _ IH].
  - cbn [app comprehension]. by rewrite child_entry_not_object.
  - cbn [app comprehension]. by rewrite child_entry_pair_of, IH.
Qed.

Lemma omap_length {A B} (f : A -> option B) (l : list A) :
  (length (omap f l) <= length l)%nat.
Proof.
  induction l as [|a l IH]; [done|]. cbn [omap list_omap length].
  destruct (f a); cbn [length]; lia.
Qed.

(** X6: on a record of the data model (an object whose [relations] is an
    object and whose [hasPart] is a list of objects), the extraction returns
    the pairs of the children that have a truthy pid and a non-null order,
    in the order of [hasPart] and without the others, whenever there is at
    least one; it prints the count of those pairs and nothing else. *)
Theorem get_child_pids_returns_the_valid_children
    (m r : gmap string pyval) (children : list pyval) (s : state) :
  m !! "relations" = Some (PDict r) ->
  r !! "hasPart" = Some (PList children) ->
  Forall is_dict children ->
  omap pair_of children <> [] ->
  get_child_pids (PDict m) s
    = Run (Returns (omap pair_of children)) s
        [Stdout (found_notice (length (omap pair_of children)))]
  /\ (length (omap pair_of children) <= length children)%nat.
Proof.
  intros Hrel Hpart Hall Hne. split; [|apply omap_length].
  unfold get_child_pids, bind. cbn [py_get lift ret res final emitted].
  rewrite Hrel. cbn [default from_option id].
  rewrite (truthy_dict _ (lookup_nonempty _ _ _ Hpart)).
  cbn [negb py_get lift ret res final]. rewrite Hpart.
  cbn [default from_option id].
  assert (children <> []) as Hc by (intros ->; by apply Hne).
  destruct children as [|c cs]; [done|].
  cbn [truthy negb py_iter lift ret res final emitted].
  rewrite (comprehension_objects _ Hall).
  destruct (omap pair_of (c :: cs)) as [|p ps]; [done|]. reflexivity.
Qed.

Lemma get_child_pids_returns_witness :
  get_child_pids
    (item_with [child_descriptor (PStr "a:1") (PInt 0);
                child_descriptor (PStr EmptyString) (PInt 2);
                child_descriptor (PStr "a:3") (PStr "iii")]) empty_disk
  = Run (Returns [(PStr "a:1", PInt 0); (PStr "a:3", PStr "iii")]) empty_disk
      [Stdout "Found 2 child PIDs."].
Proof.
  destruct (get_child_pids_returns_the_valid_children
              {[ "relations" := PDict {[ "hasPart" := PList
                   [child_descriptor (PStr "a:1") (PInt 0);
                    child_descriptor (PStr EmptyString) (PInt 2);
                    child_descriptor (PStr "a:3") (PStr "iii")] ]} ]}
              {[ "hasPart" := PList
                   [child_descriptor (PStr "a:1") (PInt 0);
                    child_descriptor (PStr EmptyString) (PInt 2);
                    child_descriptor (PStr "a:3") (PStr "iii")] ]}
              [child_descriptor (PStr "a:1") (PInt 0);
               child_descriptor (PStr EmptyString) (PInt 2);
               child_descriptor (PStr "a:3") (PStr "iii")] empty_disk)
    as [Hrun _].
  - reflexivity.
  - reflexivity.
  - repeat constructor; by eexists.
  - discriminate.
  - exact Hrun.
Defined.

(** ** What [get_child_pids] does besides *)

Lemma py_get_raises (v : pyval) (key : string) e :
  py_get v key = Raise e -> extraction_error e.
Proof. destruct v; try done; by intros [= <-]. Qed.

Lemma py_iter_raises (v : pyval) e :
  py_iter v = Raise e -> extraction_error e.
Proof. destruct v; try done; by intros [= <-]. Qed.

Lemma child_entry_raises (child : pyval) e :
  child_entry child = Raise e -> extraction_error e.
Proof.
  unfold child_entry.
  destruct (py_get child "pid") as [pid|e1] eqn:H1.
  - destruct (truthy pid); [|done].
    destruct (py_get child "order") as [order|e2] eqn:H2.
    + by destruct (is_not_None order).
    + intros [= <-]. by eapply py_get_raises.
  - intros [= <-]. by eapply py_get_raises.
Qed.

Lemma comprehension_raises (children : list pyval) e :
  comprehension children = Raise e -> extraction_error e.
Proof.
  induction children as [|child rest IH]; [done|]. cbn [comprehension].
  destruct (child_entry child) as [kept|e1] eqn:H1.
  - destruct (comprehension rest) as [ps|e2]; [done|].
    intros [= <-]. by apply IH.
  - intros [= <-]. by eapply child_entry_raises.
Qed.

Lemma get_child_pids_shape (parent_data : pyval) (s : state) :
  let r := get_child_pids parent_data s in
  final r = s
  /\ match res r with
     | Returns pairs =>
         pairs <> [] /\ Forall passes_filter pairs
         /\ emitted r = [Stdout (found_notice (length pairs))]
     | Raises e => emitted r = [] /\ extraction_error e
     | Exits _ => False
     end.
Proof.
  cbv zeta. unfold get_child_pids, bind.
  destruct (py_get parent_data "relations") as [relations|e] eqn:H1;
    cbn [lift ret raise res final emitted];
    [|split; [done|]; split; [done|]; by eapply py_get_raises].
  destruct (truthy relations); cbn [negb raise res final emitted]; [|done].
  destruct (py_get relations "hasPart") as [children|e] eqn:H2;
    cbn [lift ret raise res final emitted];
    [|split; [done|]; split; [done|]; by eapply py_get_raises].
  destruct (truthy children); cbn [negb raise res final emitted]; [|done].
  destruct (py_iter children) as [items|e] eqn:H3;
    cbn [lift ret raise res final emitted];
    [|split; [done|]; split; [done|]; by eapply py_iter_raises].
  destruct (comprehension items) as [pairs|e] eqn:H4;
    cbn [lift ret raise res final emitted];
    [|split; [done|]; split; [done|]; by eapply comprehension_raises].
  destruct pairs as [|p pairs]; cbn [len_is_zero orb raise res final emitted];
    [done|].
  split; [done|]. split; [done|]. split; [|done].
  by apply (comprehension_filtered items).
Qed.

(** X7: [get_child_pids] never changes the state and never exits.  When it
    returns, the list is not empty, every pair in it has a truthy pid and
    an order that is not [None], and the one line printed is the [Found]
    notice with the length of the list.  When it raises, it has printed
    nothing, and the exception is a [ValueError], an [AttributeError] or a
    [TypeError]. *)
Theorem get_child_pids_effects (parent_data : pyval) (s : state) :
  let r := get_child_pids parent_data s in
  final r = s
  /\ match res r with
     | Returns pairs =>
         pairs <> [] /\ Forall passes_filter pairs
         /\ emitted r = [Stdout (found_notice (length pairs))]
     | Raises e => emitted r = [] /\ extraction_error e
     | Exits _ => False
     end.
Proof. apply get_child_pids_shape. Qed.

(** X8: outside the data model the extraction fails with the error of the
    first operation that does not apply.  A [hasPart] that is truthy but
    not a list gives a [TypeError] when it cannot be iterated (a number,
    [true]) and the [AttributeError] of [str] when iterating it yields
    strings (a string, an object); a list with a child that is not an
    object gives the [AttributeError] of the first such child, even when
    valid children come before it.  Nothing is printed. *)
Theorem get_child_pids_outside_the_data_model
    (m r : gmap string pyval) (s : state) :
  m !! "relations" = Some (PDict r) ->
  (forall children,
     r !! "hasPart" = Some children ->
     truthy children = true ->
     (forall l, children <> PList l) ->
     get_child_pids (PDict m) s
       = Run (Raises (not_a_list_error children)) s [])
  /\ (forall before child after,
        r !! "hasPart" = Some (PList (before ++ child :: after)) ->
        Forall is_dict before ->
        ~ is_dict child ->
        get_child_pids (PDict m) s
          = Run (Raises (AttributeError
                           ("'" +:+ type_name child
                              +:+ "' object has no attribute 'get'"))) s []).
Proof.
  intros Hrel. split.
  - intros children Hpart Htruthy Hlist.
    unfold get_child_pids, bind. cbn [py_get lift ret res final emitted].
    rewrite Hrel. cbn [default from_option id].
    rewrite (truthy_dict _ (lookup_nonempty _ _ _ Hpart)).
    cbn [negb py_get lift ret res final]. rewrite Hpart.
    cbn [default from_option id]. rewrite Htruthy. cbn [negb].
    destruct children as [|b|n|f|str|l|d].
    + done.
    + by destruct b.
    + reflexivity.
    + reflexivity.
    + cbn [py_iter lift ret res final emitted].
      destruct str as [|c str]; [done|]. reflexivity.
    + by destruct (Hlist l).
    + cbn [py_iter lift ret res final emitted].
      destruct (map_to_list d) as [|[k v] kvs] eqn:Hd.
      * apply map_to_list_empty_iff in Hd. subst d. done.
      * reflexivity.
  - intros before child after Hpart Hbefore Hchild.
    unfold get_child_pids, bind. cbn [py_get lift ret res final emitted].
    rewrite Hrel. cbn [default from_option id].
    rewrite (truthy_dict _ (lookup_nonempty _ _ _ Hpart)).
    cbn [negb py_get lift ret res final]. rewrite Hpart.
    cbn [default from_option id].
    assert (truthy (PList (before ++ child :: after)) = true) as ->
      by by destruct before.
    cbn [negb py_iter lift ret res final emitted].
    by rewrite (comprehension_not_object _ _ _ Hbefore Hchild).
Qed.

Lemma get_child_pids_outside_the_data_model_witness :
  get_child_pids
    (PDict {[ "relations" := PDict {[ "hasPart" := PInt 3 ]} ]}) empty_disk
  = Run (Raises (TypeError "'int' object is not iterable")) empty_disk []
  /\ get_child_pids
       (item_with ([child_descriptor (PStr "a:1") (PInt 1)]
                     ++ PStr "a:2" :: [])) empty_disk
     = Run (Raises (AttributeError "'str' object has no attribute 'get'"))
         empty_disk [].
Proof.
  split.
  - destruct (get_child_pids_outside_the_data_model
                {[ "relations" := PDict {[ "hasPart" := PInt 3 ]} ]}
                {[ "hasPart" := PInt 3 ]} empty_disk) as [Hnot _];
      [reflexivity|].
    apply (Hnot (PInt 3)); [reflexivity | reflexivity | discriminate].
  - destruct (get_child_pids_outside_the_data_model
                {[ "relations" := PDict {[ "hasPart" := PList
                     ([child_descriptor (PStr "a:1") (PInt 1)]
                        ++ PStr "a:2" :: []) ]} ]}
                {[ "hasPart" := PList
                     ([child_descriptor (PStr "a:1") (PInt 1)]
                        ++ PStr "a:2" :: []) ]} empty_disk) as [_ Hchild];
      [reflexivity|].
    apply (Hchild [child_descriptor (PStr "a:1") (PInt 1)] (PStr "a:2") []).
    + reflexivity.
    + repeat constructor. by eexists.
    + by intros [d Hd].
Defined.

(** ** [download_image] on a destination that is not there *)

(** X9: when the destination does not exist, the server answers with a
    status in 200..299 and a body that can be read, and the file can be
    opened and written, [download_image] makes the one request, writes
    exactly the body to the destination, touches no other path and prints
    nothing. *)
Theorem download_image_writes_the_body
    env (image_url output_path : string) (s : state)
    status reason (data : list Byte.byte) :
  fs s !! output_path = None ->
  http env (requests s) image_url = Response status reason (Body data) ->
  (200 <= status < 300)%Z ->
  open_fault env output_path = None ->
  write_fault env output_path data = None ->
  download_image env image_url output_path s
    = Run (Returns tt)
        (State (<[output_path := File data]> (fs s)) (S (requests s)))
        [Call image_url output_path; Request image_url].
Proof.
  intros Hnew Hhttp Hstatus Hopen Hwrite.
  rewrite download_image_absent by done. cbv zeta.
  unfold try_except, bind, urlopen, open_wb, write. rewrite Hhttp.
  replace ((200 <=? status)%Z && (status <? 300)%Z) with true by lia.
  cbn [res final emitted fs requests]. rewrite Hopen.
  cbn [read ret res final emitted fs requests]. rewrite Hwrite.
  cbn [res final emitted]. by rewrite insert_insert_eq.
Qed.

Lemma download_image_writes_the_body_witness :
  download_image (sample_env 200 sample_record true None)
    "https://repository.library.brown.edu/iiif/image/a:1/full/!800,800/0/default.jpg"
    "out/0001.jpg" (State ∅ 1)
  = Run (Returns tt) (State (<["out/0001.jpg" := File jpeg]> ∅) 2)
      [Call "https://repository.library.brown.edu/iiif/image/a:1/full/!800,800/0/default.jpg"
         "out/0001.jpg";
       Request "https://repository.library.brown.edu/iiif/image/a:1/full/!800,800/0/default.jpg"].
Proof.
  apply (download_image_writes_the_body
           (sample_env 200 sample_record true None) _ _ (State ∅ 1)
           200%Z "OK" jpeg); [reflexivity | reflexivity | lia | reflexivity ..].
Defined.

(** X10: when the request gets no response or a status outside 200..299, or
    the destination cannot be opened, [download_image] logs the failure on
    standard error and raises it, and the file system is as before: no file
    is left at the destination, so that a later call for it is not skipped
    but tries again. *)
Theorem download_image_failure_before_open_leaves_no_file
    env (image_url output_path : string) (s : state) (e : exn) :
  fs s !! output_path = None ->
  fails_before_open env (requests s) image_url output_path e ->
  let r := download_image env image_url output_path s in
  r = Run (Raises e) (State (fs s) (S (requests s)))
        [Call image_url output_path; Request image_url;
         Stderr ("Failed to download image from " +:+ image_url +:+ ": "
                   +:+ exn_str e)]
  /\ (forall env' image_url',
        requested (emitted (download_image env' image_url' output_path (final r)))
          = [image_url']).
Proof.
  intros Hnew Hfail. cbv zeta.
  assert (download_image env image_url output_path s
          = Run (Raises e) (State (fs s) (S (requests s)))
              [Call image_url output_path; Request image_url;
               Stderr ("Failed to download image from " +:+ image_url +:+ ": "
                         +:+ exn_str e)]) as Hrun.
  { rewrite download_image_absent by done. cbv zeta.
    unfold try_except, bind, urlopen, open_wb.
    destruct Hfail as [e Hh|status reason payload Hh Hst
                      |status reason payload e Hh Hst Hopen]; rewrite Hh.
    - done.
    - replace ((200 <=? status)%Z && (status <? 300)%Z) with false by lia. done.
    - replace ((200 <=? status)%Z && (status <? 300)%Z) with true by lia.
      cbn [res final emitted fs requests]. by rewrite Hopen. }
  rewrite Hrun. split; [done|]. cbn [final].
  intros env' image_url'. rewrite download_image_absent by done.
  cbv zeta. cbn [emitted requested]. f_equal.
  unfold try_except, bind, urlopen. cbn [fs requests].
  destruct (http env' (S (requests s)) image_url') as [st rs pl|e'].
  - destruct ((200 <=? st)%Z && (st <? 300)%Z);
      cbn [res final emitted requested app]; [|done].
    unfold open_wb. destruct (open_fault env' output_path);
      cbn [res final emitted requested app]; [done|].
    destruct pl as [data|e']; cbn [read ret raise res final emitted requested app];
      [|done].
    unfold write. by destruct (write_fault env' output_path data) as [[k e']|].
  - done.
Qed.

Lemma download_image_failure_before_open_witness :
  download_image (sample_env 200 sample_record false None)
    "https://repository.library.brown.edu/iiif/image/a:1/full/!800,800/0/default.jpg"
    "out/0001.jpg" (State ∅ 1)
  = Run (Raises (URLError "unreachable")) (State ∅ 2)
      [Call "https://repository.library.brown.edu/iiif/image/a:1/full/!800,800/0/default.jpg"
         "out/0001.jpg";
       Request "https://repository.library.brown.edu/iiif/image/a:1/full/!800,800/0/default.jpg";
       Stderr "Failed to download image from https://repository.library.brown.edu/iiif/image/a:1/full/!800,800/0/default.jpg: <urlopen error unreachable>"].
Proof.
  destruct (download_image_failure_before_open_leaves_no_file
              (sample_env 200 sample_record false None)
              "https://repository.library.brown.edu/iiif/image/a:1/full/!800,800/0/default.jpg"
              "out/0001.jpg" (State ∅ 1) (URLError "unreachable"))
    as [Hrun _].
  - reflexivity.
  - apply open_no_response. reflexivity.
  - exact Hrun.
Defined.

(** ** What [download_image] touches *)

Lemma download_image_final env (image_url output_path : string) (s : state) :
  fs s !! output_path = None ->
  let r := download_image env image_url output_path s in
  requests (final r) = S (requests s)
  /\ (fs (final r) = fs s /\ res r <> Returns tt
      \/ exists c, fs (final r) = <[output_path := File c]> (fs s)).
Proof.
  intros Hnew. cbv zeta. rewrite download_image_absent by done. cbv zeta.
  unfold try_except, bind, urlopen, open_wb.
  destruct (http env (requests s) image_url) as [st rs pl|e].
  - destruct ((200 <=? st)%Z && (st <? 300)%Z);
      cbn [res final emitted fs requests]; [|split; [done|]; by left].
    destruct (open_fault env output_path);
      cbn [res final emitted fs requests]; [split; [done|]; by left|].
    destruct pl as [data|e]; cbn [read ret raise res final emitted fs requests].
    + unfold write. cbn [fs requests].
      destruct (write_fault env output_path data) as [[k e]|];
        cbn [res final emitted fs requests]; (split; [done|]); right;
        eexists; by rewrite insert_insert_eq.
    + split; [done|]. right. by eexists.
  - cbn [res final emitted fs requests]. split; [done|]. by left.
Qed.

Lemma download_image_frame
    env (image_url output_path : string) (s : state) :
  let r := download_image env image_url output_path s in
  extends s (final r)
  /\ (forall p, p <> output_path -> fs (final r) !! p = fs s !! p)
  /\ (res r = Returns tt -> is_Some (fs (final r) !! output_path))
  /\ (requests s <= requests (final r) <= S (requests s))%nat.
Proof.
  cbv zeta. destruct (fs s !! output_path) as [n|] eqn:Hp.
  - rewrite download_image_exists by eauto. cbn [res final].
    split; [by intros p n' Hn|]. split; [done|].
    split; [intros _; by eexists | lia].
  - destruct (download_image_final env image_url output_path s Hp)
      as (Hreq & [[Hfs Hres]|[c Hfs]]); rewrite Hreq.
    + split; [intros p n; by rewrite Hfs|]. split; [by rewrite Hfs|].
      split; [done | lia].
    + split.
      { intros p n Hn. rewrite Hfs.
        rewrite lookup_insert_ne; [done|]. intros <-. congruence. }
      split; [intros p Hne; by rewrite Hfs, lookup_insert_ne|].
      split; [|lia]. intros _. rewrite Hfs, lookup_insert_eq. by eexists.
Qed.

(** X11: [download_image] touches nothing but its destination, and that only
    when it is not there: every entry of the file system stays as it was,
    every other path stays absent if it was absent, and at most one request
    is made.  When it returns, the destination exists. *)
Theorem download_image_touches_only_its_destination
    env (image_url output_path : string) (s : state) :
  let r := download_image env image_url output_path s in
  extends s (final r)
  /\ (forall p, p <> output_path -> fs (final r) !! p = fs s !! p)
  /\ (res r = Returns tt -> is_Some (fs (final r) !! output_path))
  /\ (requests s <= requests (final r) <= S (requests s))%nat.
Proof. apply download_image_frame. Qed.

Lemma download_image_touches_only_its_destination_witness :
  let r := download_image (sample_env 200 sample_record true None)
             "https://repository.library.brown.edu/iiif/image/a:1/full/!800,800/0/default.jpg"
             "out/0001.jpg" (State {[ "out/0000.jpg" := File [] ]} 1) in
  is_Some (fs (final r) !! "out/0001.jpg")
  /\ fs (final r) !! "out/0000.jpg" = Some (File []).
Proof.
  cbv zeta.
  destruct (download_image_touches_only_its_destination
              (sample_env 200 sample_record true None)
              "https://repository.library.brown.edu/iiif/image/a:1/full/!800,800/0/default.jpg"
              "out/0001.jpg" (State {[ "out/0000.jpg" := File [] ]} 1))
    as (_ & Hother & Hthere & _).
  split.
  - apply Hthere. reflexivity.
  - rewrite Hother by discriminate. reflexivity.
Defined.

(** ** The file system over a loop *)

Lemma extends_refl (s : state) : extends s s.
Proof. by intros p n. Qed.

Lemma extends_trans (s1 s2 s3 : state) :
  extends s1 s2 -> extends s2 s3 -> extends s1 s3.
Proof. intros H1 H2 p n Hp. by apply H2, H1. Qed.

Lemma extends_grows (s s' : state) : extends s s' -> grows (fs s) s'.
Proof. intros H p [n Hn]. exists n. by apply H. Qed.

(** What a turn of the loop leaves, from what [download_image] leaves. *)
Lemma process_child_final env (output_dir : string) pid page (s : state) :
  let r := download_image env (image_url_of env pid)
             (output_path_of env output_dir page) s in
  let r' := process_child env output_dir (pid, page) s in
  final r' = final r
  /\ (res r' = Returns tt <-> res r = Returns tt)
  /\ requested (emitted r') = requested (emitted r).
Proof.
  cbv zeta. rewrite process_child_run. cbv zeta.
  destruct (res (download_image _ _ _ _)) as [[]|e|code] eqn:Hr;
    rewrite ?Hr; cbn [res final emitted]; try done.
  split; [done|]. split; [done|]. by rewrite requested_app, app_nil_r.
Qed.

Lemma for_children_extends env (output_dir : string) child_pids (s : state) :
  extends s (final (for_children env output_dir child_pids s)).
Proof.
  revert s. induction child_pids as [|[pid page] rest IH]; intros s.
  - apply extends_refl.
  - cbn [for_children]. unfold bind.
    destruct (process_child_final env output_dir pid page s) as (Hf & _ & _).
    destruct (download_image_frame env
                (image_url_of env pid) (output_path_of env output_dir page) s)
      as (Hext & _).
    rewrite <- Hf in Hext.
    destruct (res (process_child env output_dir (pid, page) s));
      cbn [final]; [|done..].
    by eapply extends_trans.
Qed.

Lemma for_children_all_there env (output_dir : string) child_pids (s : state) :
  res (for_children env output_dir child_pids s) = Returns tt ->
  Forall (fun child =>
            is_Some (fs (final (for_children env output_dir child_pids s))
                       !! output_path_of env output_dir child.2))
    child_pids.
Proof.
  revert s. induction child_pids as [|[pid page] rest IH]; intros s; [done|].
  cbn [for_children]. unfold bind.
  destruct (process_child_final env output_dir pid page s) as (Hf & Hr & _).
  destruct (download_image_frame env
              (image_url_of env pid) (output_path_of env output_dir page) s)
    as (_ & _ & Hthere & _).
  destruct (res (process_child env output_dir (pid, page) s)) as [[]|e|code];
    cbn [res final]; [|done..].
  intros Hrest. constructor; [|by apply IH].
  cbn [snd]. rewrite Hf.
  apply (extends_grows _ _ (for_children_extends env output_dir rest _)).
  apply Hthere. by apply Hr.
Qed.

Lemma py_str_same env env' (v : pyval) :
  container_repr env' = container_repr env -> py_str env' v = py_str env v.
Proof. intros H. destruct v; try done; cbn [py_str]; by rewrite H. Qed.

Lemma output_path_of_same env env' (output_dir : string) (page : pyval) :
  container_repr env' = container_repr env ->
  output_path_of env' output_dir page = output_path_of env output_dir page.
Proof.
  intros H. unfold output_path_of, page_name. by rewrite (py_str_same _ _ _ H).
Qed.

(** X14: when the loop has gone through a list without a failure, every
    destination of the list exists, and going through the same list again,
    from that state or from one with more files, with whatever network,
    returns without a single request and leaves the state as it is. *)
Theorem a_finished_loop_is_not_repeated
    env (child_pids : list (pyval * pyval)) (output_dir : string) (s : state) :
  let r := download_images_for_children env child_pids output_dir s in
  res r = Returns tt ->
  Forall (fun child =>
            is_Some (fs (final r) !! output_path_of env output_dir child.2))
    child_pids
  /\ (forall env' s',
        container_repr env' = container_repr env ->
        extends (final r) s' ->
        let r' := download_images_for_children env' child_pids output_dir s' in
        res r' = Returns tt /\ final r' = s' /\ requested (emitted r') = []).
Proof.
  cbv zeta. unfold download_images_for_children, bind, emit.
  cbn [res final emitted].
  intros Hres.
  assert (res (for_children env output_dir child_pids s) = Returns tt) as Hloop.
  { by destruct (res (for_children env output_dir child_pids s)) as [[]| |]. }
  pose proof (for_children_all_there env output_dir child_pids s Hloop) as Hall.
  split; [done|].
  intros env' s' Hrepr Hext.
  destruct (for_children_all_present env' output_dir child_pids s')
    as (Hr & Hs & Hq).
  { eapply Forall_impl; [exact Hall|]. intros child Hc. cbn beta in *.
    rewrite (output_path_of_same _ _ _ _ Hrepr).
    by apply (extends_grows _ _ Hext). }
  cbv zeta in Hr, Hs, Hq. rewrite Hr. cbn [res final emitted app requested].
  by rewrite Hs, Hq.
Qed.

Lemma a_finished_loop_is_not_repeated_witness :
  let r := download_images_for_children
             (sample_env 200 sample_record true None) two_pages "out"
             (State ∅ 1) in
  is_Some (fs (final r) !! "out/0023.jpg")
  /\ requested (emitted (download_images_for_children
                           (sample_env 200 sample_record false None)
                           two_pages "out" (final r))) = [].
Proof.
  cbv zeta.
  destruct (a_finished_loop_is_not_repeated
              (sample_env 200 sample_record true None) two_pages "out"
              (State ∅ 1)) as [Hall Hagain]; [reflexivity|].
  split.
  - by apply Forall_cons in Hall as [_ [Hlast _]%Forall_cons].
  - apply Hagain; [reflexivity | apply extends_refl].
Defined.

(** ** Requests *)

Lemma download_image_requested env (image_url output_path : string) (s : state) :
  requested (emitted (download_image env image_url output_path s))
    = if bool_decide (is_Some (fs s !! output_path)) then [] else [image_url].
Proof.
  destruct (fs s !! output_path) as [n|] eqn:Hp.
  - rewrite download_image_exists by eauto.
    by rewrite bool_decide_eq_true_2 by eauto.
  - rewrite bool_decide_eq_false_2 by (by intros [? ?]).
    rewrite download_image_absent by done.
    cbv zeta. cbn [emitted requested].
    unfold try_except, bind, urlopen.
    destruct (http env (requests s) image_url) as [st rs pl|e]; [|done].
    destruct ((200 <=? st)%Z && (st <? 300)%Z);
      cbn [res final emitted requested app]; [|done].
    unfold open_wb. destruct (open_fault env output_path);
      cbn [res final emitted requested app]; [done|].
    destruct pl as [data|e]; cbn [read ret raise res final emitted requested app];
      [|done].
    unfold write. by destruct (write_fault env output_path data) as [[k e]|].
Qed.

Lemma for_children_requested env (output_dir : string) child_pids (s : state) :
  requested (emitted (for_children env output_dir child_pids s))
    `sublist_of` ((fun child => image_url_of env child.1) <$> child_pids).
Proof.
  revert s. induction child_pids as [|[pid page] rest IH]; intros s; [done|].
  cbn [for_children fmap list_fmap]. unfold bind.
  destruct (process_child_final env output_dir pid page s) as (_ & _ & Hq).
  rewrite download_image_requested in Hq.
  assert (requested (emitted (process_child env output_dir (pid, page) s))
            `sublist_of` [image_url_of env pid]) as Hone.
  { rewrite Hq. destruct (bool_decide _); [apply sublist_nil_l | done]. }
  destruct (res (process_child env output_dir (pid, page) s));
    cbn [emitted].
  - rewrite requested_app.
    apply (sublist_app _ [image_url_of env pid]); [done | apply IH].
  - by apply (sublist_inserts_r
                ((fun child => image_url_of env child.1) <$> rest)
                _ [image_url_of env pid]).
  - by apply (sublist_inserts_r
                ((fun child => image_url_of env child.1) <$> rest)
                _ [image_url_of env pid]).
Qed.

(** X12: [download_image] asks the network exactly when the destination is
    not there, and then once, whatever comes of it: nothing is tried a
    second time.  So the requests of the loop are a sub-sequence of the
    image URLs of its pairs, in their order: at most one request per pair,
    and none for anything else. *)
Theorem no_request_is_repeated
    env (child_pids : list (pyval * pyval)) (output_dir : string) (s : state) :
  (forall image_url output_path,
     requested (emitted (download_image env image_url output_path s))
       = if bool_decide (is_Some (fs s !! output_path)) then []
         else [image_url])
  /\ requested (emitted (download_images_for_children env child_pids
                           output_dir s))
       `sublist_of` ((fun child => image_url_of env child.1) <$> child_pids)
  /\ (length (requested (emitted (download_images_for_children env child_pids
                                    output_dir s)))
      <= length child_pids)%nat.
Proof.
  split; [intros; apply download_image_requested|].
  assert (requested (emitted (download_images_for_children env child_pids
                                output_dir s))
          = requested (emitted (for_children env output_dir child_pids s)))
    as ->.
  { unfold download_images_for_children, bind, emit. cbn [res final emitted].
    by destruct (res (for_children env output_dir child_pids s)). }
  pose proof (for_children_requested env output_dir child_pids s) as Hsub.
  split; [done|]. apply sublist_length in Hsub. by rewrite length_fmap in Hsub.
Qed.

(** ** The same destination twice in a run *)

Lemma calls_nil_no_call (evs : list event) a u p b :
  calls evs = [] -> evs <> a ++ Call u p :: b.
Proof. intros Hc ->. rewrite calls_app in Hc. by destruct (calls a). Qed.

Lemma skips_repeats_single (evs : list event) :
  (length (calls evs) <= 1)%nat -> skips_repeats evs.
Proof.
  intros Hlen a u1 p b u2 c ->.
  rewrite calls_app in Hlen. cbn [calls] in Hlen.
  rewrite calls_app in Hlen. cbn [calls] in Hlen.
  rewrite length_app in Hlen. cbn [length] in Hlen.
  rewrite length_app in Hlen. cbn [length] in Hlen. lia.
Qed.

Lemma skips_repeats_app fs1 (evs1 evs2 : list event) u0 p0 :
  calls evs1 = [(u0, p0)] ->
  is_Some (fs1 !! p0) ->
  skips_existing fs1 evs2 ->
  skips_repeats evs2 ->
  skips_repeats (evs1 ++ evs2).
Proof.
  intros Hone Hp0 Hexist Hrep a u1 p b u2 c Heq.
  apply app_eq_inv in Heq as [(k & -> & Hk)|(k & -> & ->)].
  - destruct k as [|ev k]; cbn [app] in Hk.
    + subst evs2. by apply (Hrep [] u1 p b u2 c).
    + injection Hk as <- Hk.
      rewrite calls_app in Hone. cbn [calls] in Hone.
      destruct (calls a) as [|x xs] eqn:Ha; [|by destruct xs].
      cbn [app] in Hone. injection Hone as -> -> Hk'.
      apply app_eq_inv in Hk as [(k2 & -> & ->)|(k2 & -> & Hk2)].
      * by apply (Hexist k2 u2 p0 c).
      * destruct k2 as [|ev k2]; cbn [app] in Hk2.
        { subst evs2. by apply (Hexist [] u2 p0 c). }
        injection Hk2 as <- _. rewrite calls_app in Hk'.
        by destruct (calls b).
  - by apply (Hrep k u1 p b u2 c).
Qed.

Lemma for_children_skips_existing env (output_dir : string) child_pids (s : state) :
  skips_existing (fs s) (emitted (for_children env output_dir child_pids s)).
Proof.
  apply (keeps_for_children (grows (fs s)) (skips_existing (fs s))
           (skips_nil _) (skips_app _)
           (fun line => skips_other _ (Stderr line) ltac:(done))
           (keeps_download_image_skips _) env output_dir child_pids s).
  by intros p Hp.
Qed.

Lemma for_children_skips_repeats env (output_dir : string) child_pids (s : state) :
  skips_repeats (emitted (for_children env output_dir child_pids s)).
Proof.
  revert s. induction child_pids as [|[pid page] rest IH]; intros s.
  - apply skips_repeats_single. cbn. lia.
  - cbn [for_children]. unfold bind.
    pose proof (process_child_calls env output_dir (pid, page) s) as Hc.
    destruct (process_child_final env output_dir pid page s) as (Hf & Hr & _).
    destruct (download_image_frame env
                (image_url_of env pid) (output_path_of env output_dir page) s)
      as (_ & _ & Hthere & _).
    destruct (res (process_child env output_dir (pid, page) s)) as [[]|e|code];
      cbn [emitted final].
    + eapply skips_repeats_app; [exact Hc | | apply for_children_skips_existing
                                 | apply IH].
      cbn [snd]. rewrite Hf. apply Hthere. by apply Hr.
    + apply skips_repeats_single. by rewrite Hc.
    + apply skips_repeats_single. by rewrite Hc.
Qed.

(** X13: two pairs of a list whose orders give the same file name share a
    destination, and only the first of them is downloaded: in the events of
    a loop, any later call of [download_image] for a destination that was
    called before is followed at once by the skip notice, so by no
    request. *)
Theorem same_destination_is_downloaded_once
    env (child_pids : list (pyval * pyval)) (output_dir : string) (s : state) :
  skips_repeats
    (emitted (download_images_for_children env child_pids output_dir s)).
Proof.
  unfold download_images_for_children, bind, emit. cbn [res final emitted].
  pose proof (for_children_skips_repeats env output_dir child_pids s) as Hrep.
  intros a u1 p b u2 c Heq.
  destruct a as [|ev a]; cbn [app] in Heq; [done|].
  injection Heq as _ Heq. by apply (Hrep a u1 p b u2 c).
Qed.

Lemma same_destination_is_downloaded_once_witness :
  exists rest,
    [Stdout "Image already exists at out/0005.jpg, skipping download."]
      = Stdout (skip_notice "out/0005.jpg") :: rest.
Proof.
  apply (same_destination_is_downloaded_once
           (sample_env 200 sample_record true None)
           [(PStr "a:1", PInt 5); (PStr "a:2", PInt 5)] "out" (State ∅ 1)
           [Progress 2]
           "https://repository.library.brown.edu/iiif/image/a:1/full/!800,800/0/default.jpg"
           "out/0005.jpg"
           [Request "https://repository.library.brown.edu/iiif/image/a:1/full/!800,800/0/default.jpg"]
           "https://repository.library.brown.edu/iiif/image/a:2/full/!800,800/0/default.jpg").
  reflexivity.
Defined.

(** ** The file system over a run of the program *)

Lemma add_dirs_lookup (dirs : list string) (m : gmap string node) (p : string) :
  add_dirs dirs m !! p = m !! p
  \/ (m !! p = None /\ add_dirs dirs m !! p = Some Dir).
Proof.
  induction dirs as [|d dirs IH]; cbn [add_dirs foldr]; [by left|].
  fold (add_dirs dirs m).
  destruct (add_dirs dirs m !! d) eqn:Hd; [done|].
  destruct (decide (d = p)) as [<-|Hne].
  - rewrite lookup_insert_eq. right. split; [|done].
    destruct IH as [<-|[? ?]]; done.
  - by rewrite lookup_insert_ne.
Qed.

Lemma add_dirs_keeps (dirs : list string) (m : gmap string node) (p : string) n :
  m !! p = Some n -> add_dirs dirs m !! p = Some n.
Proof.
  intros Hn. destruct (add_dirs_lookup dirs m p) as [->|[? _]]; congruence.
Qed.

Lemma mkdir_extends env (path : string) (s : state) :
  extends s (final (mkdir env path s)).
Proof.
  unfold mkdir. destruct (fs s !! path) as [[c|]|] eqn:Hp;
    cbn [final]; try apply extends_refl.
  destruct (mkdir_fault env path); cbn [final]; intros p n Hn; cbn [fs].
  - by apply add_dirs_keeps.
  - rewrite lookup_insert_ne; [by apply add_dirs_keeps|].
    intros <-. congruence.
Qed.

Lemma pipeline_extends env (pid output_dir : string) (s : state) :
  extends s
    (final ((data <- fetch_parent_data env pid ;;
             child_pids <- get_child_pids data ;;
             download_images_for_children env child_pids output_dir) s)).
Proof.
  unfold bind at 1.
  destruct (fetch_parent_data_shape env pid s) as (Hfinal & _ & _).
  assert (extends s (final (fetch_parent_data env pid s))) as H1
    by (rewrite Hfinal; by intros p n).
  destruct (res (fetch_parent_data env pid s)) as [data| |]; cbn [final];
    [|done..].
  eapply extends_trans; [exact H1|]. unfold bind at 1.
  destruct (get_child_pids_shape data (final (fetch_parent_data env pid s)))
    as [Hs _].
  destruct (res (get_child_pids data _)) as [child_pids| |]; cbn [final];
    rewrite Hs; try apply extends_refl.
  unfold download_images_for_children, bind, emit. cbn [res final].
  apply for_children_extends.
Qed.

Lemma main_extends env (pid output : string) (s : state) :
  extends s (final (main env pid output s)).
Proof.
  unfold main. destruct (PyStr.is_empty _); [apply extends_refl|].
  set (inner := bind (fetch_parent_data env pid) _).
  pose proof (mkdir_extends env (path_str env output) s) as H1.
  pose proof (pipeline_extends env pid (path_str env output)
                (final (mkdir env (path_str env output) s))) as H2.
  fold inner in H2.
  unfold bind, try_except. cbv zeta beta.
  set (r1 := mkdir env (path_str env output) s) in *.
  destruct (res r1) as [[]| |]; cbn [final]; [|done..].
  set (r2 := inner (final r1)) in *.
  destruct (res r2) as [[]|e|code]; cbn [final];
    by eapply extends_trans.
Qed.

(** X15: a run of the program never removes or changes what is in the file
    system when it starts: every path that exists then is still there at
    the end, a file with the same content and a directory a directory.  All
    that a run does to the file system is to add entries. *)
Theorem program_keeps_every_existing_entry
    env (pid output : string) (s : state) :
  extends s (program env pid output s).1.2.
Proof.
  unfold program. pose proof (main_extends env pid output s) as H.
  by destruct (res (main env pid output s)).
Qed.

Lemma program_keeps_every_existing_entry_witness :
  fs (program (sample_env 200 sample_record true None) "item:1" "out"
        (State {[ "out/0001.jpg" := File [] ]} 0)).1.2 !! "out/0001.jpg"
  = Some (File []).
Proof.
  apply (program_keeps_every_existing_entry
           (sample_env 200 sample_record true None) "item:1" "out"
           (State {[ "out/0001.jpg" := File [] ]} 0) "out/0001.jpg" (File [])).
  reflexivity.
Defined.

(** ** The output directory *)

(** X16: making the output directory is not inside the [try] of [main].
    When the pid is not blank and the directory cannot be made, the program
    ends with the traceback of that exception and exit code 1, before any
    request and without the [Error: ] line.  When the path is a regular
    file, the exception is the [FileExistsError] of [os.mkdir] and the file
    system is as before; when making a directory that is not there fails,
    the file system is as before but for the parents that were made on the
    way.  A directory that is already there is accepted as it is, and one
    that is not there is made after its missing parents. *)
Theorem output_directory_failure_is_not_caught
    env (pid output : string) (s : state) :
  PyStr.strip pid <> EmptyString ->
  (forall content,
     fs s !! path_str env output = Some (File content) ->
     program env pid output s
       = (1%Z, s, [Traceback (file_exists_error (path_str env output))]))
  /\ (forall e,
        fs s !! path_str env output = None ->
        mkdir_fault env (path_str env output) = Some e ->
        program env pid output s
          = (1%Z,
             State (add_dirs (mkdir_parents env (path_str env output)) (fs s))
               (requests s),
             [Traceback e]))
  /\ (fs s !! path_str env output = Some Dir ->
      mkdir env (path_str env output) s = Run (Returns tt) s [])
  /\ (fs s !! path_str env output = None ->
      mkdir_fault env (path_str env output) = None ->
      mkdir env (path_str env output) s
        = Run (Returns tt)
            (State (<[path_str env output := Dir]>
                      (add_dirs (mkdir_parents env (path_str env output)) (fs s)))
               (requests s)) []).
Proof.
  intros Hpid. split; [|split; [|split]].
  - intros content Hfile. apply main_without_directory; [done|].
    unfold mkdir. by rewrite Hfile.
  - intros e Habsent Hfault. apply main_without_directory; [done|].
    unfold mkdir. by rewrite Habsent, Hfault.
  - intros Hdir. unfold mkdir. by rewrite Hdir.
  - intros Habsent Hfault. unfold mkdir. by rewrite Habsent, Hfault.
Qed.

Lemma output_directory_failure_witness :
  program (sample_env 200 sample_record true None) "item:1" "out"
    (State {[ "out" := File jpeg ]} 0)
  = (1%Z, State {[ "out" := File jpeg ]} 0,
     [Traceback (OtherError "FileExistsError" "[Errno 17] File exists: 'out'")])
  /\ program (stuck_env ["out"]
                (OtherError "OSError"
                   "[Errno 28] No space left on device: 'out/pages'"))
       "item:1" "out/pages" (State {[ "home" := Dir ]} 0)
     = (1%Z, State (<["out" := Dir]> {[ "home" := Dir ]}) 0,
        [Traceback (OtherError "OSError"
                      "[Errno 28] No space left on device: 'out/pages'")]).
Proof.
  split.
  - destruct (output_directory_failure_is_not_caught
                (sample_env 200 sample_record true None) "item:1" "out"
                (State {[ "out" := File jpeg ]} 0)) as (Hfile & _ & _);
      [discriminate|].
    apply (Hfile jpeg). reflexivity.
  - destruct (output_directory_failure_is_not_caught
                (stuck_env ["out"]
                   (OtherError "OSError"
                      "[Errno 28] No space left on device: 'out/pages'"))
                "item:1" "out/pages" (State {[ "home" := Dir ]} 0))
      as (_ & Hfault & _); [discriminate|].
    apply Hfault; reflexivity.
Defined.

(** ** The guard on the pid, in [main] *)

Lemma pipeline_starts_with_the_request env (pid output_dir : string) (s : state) :
  exists rest,
    emitted ((data <- fetch_parent_data env pid ;;
              child_pids <- get_child_pids data ;;
              download_images_for_children env child_pids output_dir) s)
      = Request (item_url pid) :: rest.
Proof.
  unfold bind at 1.
  destruct (fetch_parent_data_shape env pid s)
    as (_ & _ & [(data & Hres & Hev)|(e & Hres & Hev & _)]); rewrite Hres, Hev;
    cbn [res final emitted app]; eexists; reflexivity.
Qed.

(** X17: [main] tests the pid trimmed but uses it as it is given.  The pid
    is refused exactly when all its characters are white space; any other
    pid, leading and trailing blanks included, goes into the URL of the
    first request unchanged. *)
Theorem pid_is_tested_trimmed_and_used_as_given
    env (pid output : string) (s : state) :
  (PyStr.strip pid = EmptyString
   <-> forallb PyStr.isspace (list_ascii_of_string pid) = true)
  /\ (PyStr.strip pid <> EmptyString ->
      res (mkdir env (path_str env output) s) = Returns tt ->
      exists rest, (program env pid output s).2 = Request (item_url pid) :: rest).
Proof.
  split; [apply strip_empty_iff|].
  intros Hpid Hmk.
  destruct (mkdir_cases env (path_str env output) s)
    as [(e & fs' & He)|[fs' Hfs]]; [by rewrite He in Hmk|].
  destruct (pipeline_starts_with_the_request env pid (path_str env output)
              (State fs' (requests s))) as [rest Hrest].
  unfold program, main. rewrite (is_empty_false _ Hpid).
  set (inner := bind (fetch_parent_data env pid) _) in *.
  unfold bind, try_except. cbv zeta beta. rewrite Hfs. cbn [res final emitted].
  set (r2 := inner (State fs' (requests s))) in *.
  destruct (res r2) as [[]|e|code] eqn:Hr2;
    cbn [res final emitted]; rewrite ?Hr2; cbn [snd emitted];
    rewrite Hrest; cbn [app]; eexists; reflexivity.
Qed.

Lemma pid_is_used_as_given_witness :
  exists rest,
    (program (sample_env 404 sample_record true None) " a b " "out" empty_disk).2
      = Request "https://repository.library.brown.edu/api/items/ a b /" :: rest.
Proof.
  apply (proj2 (pid_is_tested_trimmed_and_used_as_given
                  (sample_env 404 sample_record true None) " a b " "out"
                  empty_disk)); [discriminate | reflexivity].
Defined.

(** ** The exit code and standard error *)

Lemma download_image_returns env (image_url output_path : string) (s : state) :
  res (download_image env image_url output_path s) = Returns tt ->
  emitted (download_image env image_url output_path s)
    = [Call image_url output_path; Stdout (skip_notice output_path)]
  \/ emitted (download_image env image_url output_path s)
     = [Call image_url output_path; Request image_url].
Proof.
  destruct (fs s !! output_path) as [n|] eqn:Hp.
  - rewrite download_image_exists by eauto. by left.
  - rewrite download_image_absent by done. cbv zeta. cbn [res emitted].
    unfold try_except, bind, urlopen.
    destruct (http env (requests s) image_url) as [st rs pl|e]; [|done].
    destruct ((200 <=? st)%Z && (st <? 300)%Z);
      cbn [res final emitted app]; [|done].
    unfold open_wb. destruct (open_fault env output_path);
      cbn [res final emitted app]; [done|].
    destruct pl as [data|e]; cbn [read ret raise res final emitted app];
      [|done].
    unfold write. destruct (write_fault env output_path data) as [[k e]|];
      cbn [res final emitted app]; [done|]. by right.
Qed.

Lemma for_children_returns_silent env (output_dir : string) child_pids (s : state) :
  res (for_children env output_dir child_pids s) = Returns tt ->
  silent (emitted (for_children env output_dir child_pids s)).
Proof.
  revert s. induction child_pids as [|[pid page] rest IH]; intros s.
  - intros _. constructor.
  - cbn [for_children]. unfold bind.
    pose proof (download_image_returns env (image_url_of env pid)
                  (output_path_of env output_dir page) s) as Hd.
    rewrite process_child_run. cbv zeta.
    destruct (res (download_image _ _ _ _)) as [[]|e|code] eqn:Hr;
      rewrite ?Hr; cbn [res final emitted]; [|done..].
    intros Hrest. apply Forall_app. split; [|by apply IH].
    destruct (Hd eq_refl) as [-> | ->]; repeat constructor; by intros [].
Qed.

Lemma bind_returns {A B} (m : M A) (k : A -> M B) (s : state) (b : B) :
  res (bind m k s) = Returns b ->
  exists a, res (m s) = Returns a
            /\ res (k a (final (m s))) = Returns b
            /\ emitted (bind m k s)
               = emitted (m s) ++ emitted (k a (final (m s)))
            /\ final (bind m k s) = final (k a (final (m s))).
Proof.
  unfold bind. destruct (res (m s)) as [a|e|code]; cbn [res emitted final];
    [|done..].
  intros Hk. by exists a.
Qed.

Lemma try_except_returns {A} (m : M A) (handler : exn -> M A) (s : state) (a : A) :
  (forall e s' x, res (handler e s') <> Returns x) ->
  res (try_except m handler s) = Returns a ->
  res (m s) = Returns a
  /\ emitted (try_except m handler s) = emitted (m s)
  /\ final (try_except m handler s) = final (m s).
Proof.
  intros Hh. unfold try_except.
  destruct (res (m s)) as [x|e|code] eqn:Hr; rewrite ?Hr; cbn [res emitted];
    try done.
  intros Hres. by destruct (Hh e (final (m s)) a).
Qed.

Lemma main_returns_silent env (pid output : string) (s : state) :
  res (main env pid output s) = Returns tt ->
  silent (emitted (main env pid output s)).
Proof.
  unfold main. destruct (PyStr.is_empty _); [done|].
  intros Hres.
  apply bind_returns in Hres as ([] & Hmk & Htry & -> & _).
  apply try_except_returns in Htry as (Hinner & -> & _); [|done].
  apply bind_returns in Hinner as (data & Hfetch & Hrest & -> & _).
  apply bind_returns in Hrest as (pairs & Hget & Hloop & -> & _).
  assert (emitted (mkdir env (path_str env output) s) = []) as ->.
  { by destruct (mkdir_cases env (path_str env output) s)
      as [(e & fs' & ->)|[fs' ->]]. }
  destruct (fetch_parent_data_shape env pid
              (final (mkdir env (path_str env output) s)))
    as (_ & _ & [(data' & _ & ->)|(e & He & _)]); [|congruence].
  pose proof (get_child_pids_shape data
                (final (fetch_parent_data env pid
                          (final (mkdir env (path_str env output) s)))))
    as [_ Hshape].
  rewrite Hget in Hshape. destruct Hshape as (_ & _ & ->).
  cbn [app]. constructor; [by intros []|]. constructor; [by intros []|].
  revert Hloop. unfold download_images_for_children, bind, emit.
  cbn [res final emitted app].
  set (r := for_children _ _ _ _).
  pose proof (for_children_returns_silent env (path_str env output) pairs
                (final (get_child_pids data
                   (final (fetch_parent_data env pid
                      (final (mkdir env (path_str env output) s))))))) as Hs.
  fold r in Hs.
  destruct (res r) as [[]|e|code]; cbn [res emitted]; [|done..].
  intros _. constructor; [by intros []|]. by apply Hs.
Qed.

(** X18: once the command line is parsed ([main] is entered with the two
    arguments; [argparse] itself exits with code 2 on a wrong command line),
    the exit code tells whether anything was reported: it is 0 or 1, and
    it is 0 exactly when the script has printed no line on standard error
    and the interpreter no traceback.  The bar that [tqdm] draws on
    standard error, in every run that reaches the loop, is not a report
    and is not counted. *)
Theorem exit_code_is_0_iff_nothing_is_reported
    env (pid output : string) (s : state) :
  let '(code, s', evs) := program env pid output s in
  (code = 0%Z \/ code = 1%Z) /\ (code = 0%Z <-> silent evs).
Proof.
  pose proof (program_stdout env pid output s) as Hp.
  pose proof (main_returns_silent env pid output s) as Hsilent.
  unfold program in *.
  destruct (res (main env pid output s)) as [[]|e|code] eqn:Hr.
  - split; [by left|]. split; [intros _; by apply Hsilent | done].
  - destruct Hp as [_ Hcode]. split; [by right|].
    split; [done|]. intros Hs. exfalso.
    apply Forall_app in Hs as [_ Hs]. apply Forall_cons in Hs as [Hs _].
    by apply Hs.
  - destruct Hp as [_ [->|(-> & before & ev & Hev & Hon)]].
    + split; [by left|]. split; [intros _|done].
      destruct (main_keeps (fun _ => True) (fun _ => True) I (fun _ _ _ _ => I)
                  (fun _ => I) (fun _ => I) (fun _ => I) (fun _ _ => I)
                  (fun _ _ _ _ => I) (fun _ => I)
                  (fun env' u p s' _ =>
                     conj I (conj I (download_image_no_exit env' u p s')))
                  env pid output s I) as (_ & _ & Hx).
      destruct (Hx 0%Z Hr) as [Hcode _]. done.
    + split; [by right|]. split; [done|]. intros Hs. exfalso.
      rewrite Hev in Hs. apply Forall_app in Hs as [_ Hs].
      apply Forall_cons in Hs as [Hs _]. by apply Hs.
Qed.

Lemma exit_code_is_0_witness :
  silent (program (sample_env 200 sample_record true None) "item:1" "out"
            empty_disk).2.
Proof.
  pose proof (exit_code_is_0_iff_nothing_is_reported
                (sample_env 200 sample_record true None) "item:1" "out"
                empty_disk) as H.
  destruct (program _ _ _ _) as [[code s'] evs] eqn:Hp.
  apply H. vm_compute in Hp. by injection Hp as <- _ _.
Defined.

(** ** What exit code 0 stands for *)







(** ** A run in which the record cannot be fetched *)

(** X5: when the record cannot be fetched, whatever the reason, the run
    ends there: the one request is the only one, [download_image] is never
    called, the last line is [Error: ] followed by the text of the
    exception, and the exit code is 1.  An [HTTPError], a [URLError] and a
    [JSONDecodeError] are thus reported twice (by [fetch_parent_data] and
    by [main]), any other exception once. *)
Theorem a_failed_fetch_ends_the_run
    env (pid output : string) (s : state) (e : exn) :
  PyStr.strip pid <> EmptyString ->
  res (mkdir env (path_str env output) s) = Returns tt ->
  fetch_fails env (requests s) (item_url pid) e ->
  let '(code, s', evs) := program env pid output s in
  code = 1%Z
  /\ evs = Request (item_url pid) :: fetch_log e
             ++ [Stderr ("Error: " +:+ exn_str e)]
  /\ calls evs = []
  /\ requested evs = [item_url pid].
Proof.
  intros Hpid Hmk Hfail.
  destruct (mkdir_cases env (path_str env output) s)
    as [(e' & fs' & He)|[fs' Hfs]]; [by rewrite He in Hmk|].
  rewrite (main_handles env pid output s _ (State fs' (S (requests s)))
             (Request (item_url pid) :: fetch_log e) e Hpid Hfs).
  - split; [done|]. split; [done|]. by destruct e.
  - unfold bind.
    by rewrite (fetch_fails_run env pid (State fs' (requests s)) e Hfail).
Qed.

Lemma a_failed_fetch_witness :
  (program (sample_env 200 sample_record false None) "item:1" "out"
     (State ∅ 1)).1.1 = 1%Z
  /\ (program (sample_env 200 sample_record false None) "item:1" "out"
        (State ∅ 1)).2
     = [Request "https://repository.library.brown.edu/api/items/item:1/";
        Stderr "URL Error: unreachable";
        Stderr "Error: <urlopen error unreachable>"].
Proof.
  pose proof (a_failed_fetch_ends_the_run
                (sample_env 200 sample_record false None) "item:1" "out"
                (State ∅ 1) (URLError "unreachable")) as H.
  destruct (program _ _ _ _) as [[code s'] evs].
  destruct H as (Hcode & Hevs & _).
  - discriminate.
  - reflexivity.
  - apply fetch_no_response. reflexivity.
  - split; [exact Hcode | exact Hevs].
Defined.

(** ** The length of a page name *)

(** X2: a page name has four characters or more, and as many as the text
    of the order when that is longer: [zfill] fills up, it never cuts. *)
Theorem page_name_length env (page : pyval) :
  String.length (page_name env page)
    = Nat.max 4 (String.length (py_str env page))
  /\ ((4 <= String.length (py_str env page))%nat ->
      page_name env page = py_str env page).
Proof.
  unfold page_name. split; [apply zfill_length | apply zfill_long].
Qed.

Lemma page_name_length_witness :
  page_name (sample_env 200 sample_record true None) (PInt 12345) = "12345".
Proof.
  apply (proj2 (page_name_length (sample_env 200 sample_record true None)
                  (PInt 12345))).
  vm_compute. lia.
Defined.
